(** * Wallet and top-up handlers of the Digiflazz top-up simulator

    A shallow embedding of the server's transaction handlers
    ([processTopUp], [walletDeposit], [getUserById], [getUserTransactions])
    and of the tRPC procedures that guard them with zod schemas.

    Modelling choices.
    - Money.  The columns [wallet_balance], [price] and [amount] are
      [numeric(10,2)]; an amount is the integer number of hundredths it
      holds.  [parseFloat] and [toString] convert between the column text
      and the JavaScript number and are the identity on such amounts.
      Amounts with more than two decimals, which the column rounds and
      JavaScript adds in floating point, are outside the model: every
      statement below is about amounts of whole hundredths.
    - Numbers.  Ids, limits and offsets are integers.  The schemas take
      any JavaScript number for them; [exec_checked] gives the range
      checks of the column types ([int4] ids, [numeric(10,2)] amounts,
      [bigint] limits) that such a number meets in the database.
    - Tables.  Every table has a [serial] primary key, so a table is a
      finite map from the key to the row.
    - Two readings of a statement.  [exec] is the statement on values
      that fit their columns; [exec_checked] adds the errors the engine
      raises for values that do not.  [run] and [run_checked] execute a
      handler under the one and the other.
    - Order.  A query without [ORDER BY], or with rows equal under it, may
      return its rows in any order, and in another one the next time.
      [rows] and [order_by_created_at_desc] fix one such order;
      [may_exec] takes them all.
    - Awaits.  A handler is an [async] function: it runs without
      interruption between two [await]s, and every [await] in the handlers
      is one database statement.  A handler is therefore a tree of
      database statements ([Prog]); [run] executes it alone, [interleave]
      executes two of them under a schedule.
    - Environment.  [Date.now()] / [new Date()] and [Math.random()] are
      read from an environment given to the call.
    - Errors.  Every handler wraps its body in [try]/[catch], logs the error
      and throws it again: a throw inside is a throw of the handler. *)

From Stdlib Require Import ZArith QArith Lia.
From stdpp Require Import gmap strings list fin_maps sorting pretty.

Local Open Scope Z_scope.

(** ** Data model (db/schema.ts, schema.ts) *)

Inductive TransactionType := topup | wallet_deposit | wallet_withdrawal.
Inductive TransactionStatus := pending | completed | failed | cancelled.
Inductive PaymentMethod := wallet | payment_gateway.
Inductive ServiceType := prepaid | postpaid.

Global Instance TransactionStatus_eq_dec : EqDecision TransactionStatus.
Proof. solve_decision. Defined.
Global Instance TransactionType_eq_dec : EqDecision TransactionType.
Proof. solve_decision. Defined.
Global Instance PaymentMethod_eq_dec : EqDecision PaymentMethod.
Proof. solve_decision. Defined.

(** Hundredths of the currency unit. *)
Definition Money := Z.
(** Milliseconds since the epoch. *)
Definition Timestamp := Z.

Record UserRow := mkUser {
  user_id : Z;
  user_email : string;
  user_name : string;
  user_phone : string;
  user_wallet_balance : Money;
  user_created_at : Timestamp;
  user_updated_at : Timestamp
}.

Record ServiceProductRow := mkProduct {
  product_id : Z;
  product_category_id : Z;
  product_code : string;
  product_name : string;
  product_description : option string;
  product_price : Money;
  product_type : ServiceType;
  product_provider : string;
  product_is_active : bool;
  product_created_at : Timestamp;
  product_updated_at : Timestamp
}.

Record Transaction := mkTransaction {
  tx_id : Z;
  tx_user_id : Z;
  tx_transaction_type : TransactionType;
  tx_amount : Money;
  tx_status : TransactionStatus;
  tx_payment_method : PaymentMethod;
  tx_reference_id : option string;
  tx_product_id : option Z;
  tx_target_number : option string;
  tx_digiflazz_reference : option string;
  tx_created_at : Timestamp;
  tx_updated_at : Timestamp
}.

(** The values of an [insert] into [transactionsTable]: the columns the
    handlers give; [id], [created_at] and [updated_at] are column defaults. *)
Record NewTransaction := mkNewTransaction {
  new_user_id : Z;
  new_transaction_type : TransactionType;
  new_amount : Money;
  new_status : TransactionStatus;
  new_payment_method : PaymentMethod;
  new_reference_id : option string;
  new_product_id : option Z;
  new_target_number : option string;
  new_digiflazz_reference : option string
}.

(** The database: the three tables the handlers touch and the sequence
    behind [transactions.id]. *)
Record Store := mkStore {
  users : gmap Z UserRow;
  service_products : gmap Z ServiceProductRow;
  transactions : gmap Z Transaction;
  transactions_id_seq : Z
}.

(** ** Inputs (schema.ts) *)

Record WalletDepositInput := mkWalletDepositInput {
  wd_user_id : Z;
  wd_amount : Money;
  wd_payment_method : PaymentMethod
}.

Record TopUpInput := mkTopUpInput {
  tu_user_id : Z;
  tu_product_id : Z;
  tu_target_number : string;
  tu_payment_method : PaymentMethod
}.


Record GetUserTransactionsInput := mkGetUserTransactionsInput {
  gt_user_id : Z;
  gt_limit : option Z;
  gt_offset : option Z
}.

(** ** Errors *)

Inductive Error :=
| ProductNotFoundOrInactive       (* 'Product not found or inactive' *)
| UserNotFound                    (* 'User not found' *)
| UserWithIdNotFound (id : Z)     (* `User with id ${id} not found` *)
| InsufficientWalletBalance       (* 'Insufficient wallet balance' *)
| TypeError                       (* a property read on [undefined] *)
| ZodError (paths : list string)  (* the procedure's input schema rejected these fields *)
| UniqueViolation                 (* the database: duplicate primary key *)
| NegativeOffset                  (* the database: OFFSET must not be negative *)
| IntegerOutOfRange               (* the database: value out of range for type integer *)
| BigintOutOfRange                (* the database: value out of range for type bigint *)
| NumericFieldOverflow            (* the database: numeric field overflow *)
| SequenceExhausted.              (* the database: reached maximum value of sequence *)

(** The two range errors stand for every refusal of an integer parameter:
    a number so large that JavaScript prints it with an exponent is refused
    for its syntax, not for its range. *)

(** ** Environment of one call *)

Record Env := mkEnv {
  (** the successive readings of the clock during the call *)
  clock : nat → Timestamp;
  (** the value [Math.random()] returns, in [0, 1) *)
  random : Q
}.

(** ** Database statements *)

(** Rows of a table in the order the engine scans them. *)
Definition rows {V} (m : gmap Z V) : list V := (map_to_list m).*2.

(** [a] may stand before [b] in a listing that is newest first. *)
Definition newer_or_same (a b : Transaction) : Prop := tx_created_at b ≤ tx_created_at a.

Global Instance newer_or_same_dec a b : Decision (newer_or_same a b).
Proof. unfold newer_or_same. apply _. Defined.

(** [orderBy(desc(created_at))].  Rows created at the same time come in an
    order the engine chooses; here the one the sort leaves. *)
Definition order_by_created_at_desc (l : list Transaction) : list Transaction :=
  merge_sort newer_or_same l.

Inductive DbOp : Type → Type :=
(** [select().from(serviceProductsTable).where(and(eq(id, i), eq(is_active, true)))] *)
| SelectActiveProduct (i : Z) : DbOp (list ServiceProductRow)
(** [select().from(usersTable).where(eq(id, i))] *)
| SelectUser (i : Z) : DbOp (list UserRow)
(** [insert(transactionsTable).values(v).returning()] at database time [now] *)
| InsertTransaction (v : NewTransaction) (now : Timestamp) : DbOp (list Transaction)
(** [update(usersTable).set({wallet_balance, updated_at}).where(eq(id, i))] *)
| UpdateUserBalance (i : Z) (balance : Money) (updated_at : Timestamp) : DbOp unit
(** [update(transactionsTable).set({status, digiflazz_reference?, updated_at})
     .where(eq(id, i)).returning()]; [dgf = None] leaves the column as it is *)
| UpdateTransaction (i : Z) (status : TransactionStatus) (dgf : option string)
    (updated_at : Timestamp) : DbOp (list Transaction)
(** [select().from(transactionsTable).where(eq(user_id, u))
     .orderBy(desc(created_at)).limit(limit).offset(offset)]; the query
     builder writes [LIMIT] only for a limit >= 0 *)
| SelectUserTransactions (u : Z) (limit offset : Z) : DbOp (list Transaction).

Definition set_user_balance (balance : Money) (updated_at : Timestamp) (u : UserRow) : UserRow :=
  {| user_id := user_id u; user_email := user_email u; user_name := user_name u;
     user_phone := user_phone u; user_wallet_balance := balance;
     user_created_at := user_created_at u; user_updated_at := updated_at |}.

Definition set_tx_status (status : TransactionStatus) (dgf : option string)
    (updated_at : Timestamp) (t : Transaction) : Transaction :=
  {| tx_id := tx_id t; tx_user_id := tx_user_id t;
     tx_transaction_type := tx_transaction_type t; tx_amount := tx_amount t;
     tx_status := status; tx_payment_method := tx_payment_method t;
     tx_reference_id := tx_reference_id t; tx_product_id := tx_product_id t;
     tx_target_number := tx_target_number t;
     tx_digiflazz_reference :=
       match dgf with Some r => Some r | None => tx_digiflazz_reference t end;
     tx_created_at := tx_created_at t; tx_updated_at := updated_at |}.

Definition new_row (i : Z) (v : NewTransaction) (now : Timestamp) : Transaction :=
  {| tx_id := i; tx_user_id := new_user_id v;
     tx_transaction_type := new_transaction_type v; tx_amount := new_amount v;
     tx_status := new_status v; tx_payment_method := new_payment_method v;
     tx_reference_id := new_reference_id v; tx_product_id := new_product_id v;
     tx_target_number := new_target_number v;
     tx_digiflazz_reference := new_digiflazz_reference v;
     tx_created_at := now; tx_updated_at := now |}.

Definition with_users (s : Store) (us : gmap Z UserRow) : Store :=
  {| users := us; service_products := service_products s;
     transactions := transactions s; transactions_id_seq := transactions_id_seq s |}.

Definition with_transactions (s : Store) (ts : gmap Z Transaction) (seq : Z) : Store :=
  {| users := users s; service_products := service_products s;
     transactions := ts; transactions_id_seq := seq |}.

(** The rows a primary-key [select] returns: none or one. *)
Definition found {V} (o : option V) : list V :=
  match o with Some v => [v] | None => [] end.

(** One statement on the database: the new database and the rows returned,
    or the error the database raises. *)
Definition exec {B} (op : DbOp B) (s : Store) : Store * (Error + B) :=
  match op in DbOp B return Store * (Error + B) with
  | SelectActiveProduct i =>
      (s, inr (filter (λ p, product_is_active p = true) (found (service_products s !! i))))
  | SelectUser i => (s, inr (found (users s !! i)))
  | InsertTransaction v now =>
      let i := transactions_id_seq s + 1 in
      match transactions s !! i with
      | Some _ => (with_transactions s (transactions s) i, inl UniqueViolation)
      | None =>
          let row := new_row i v now in
          (with_transactions s (<[i := row]> (transactions s)) i, inr [row])
      end
  | UpdateUserBalance i balance updated_at =>
      (with_users s (alter (set_user_balance balance updated_at) i (users s)), inr tt)
  | UpdateTransaction i status dgf updated_at =>
      let ts := alter (set_tx_status status dgf updated_at) i (transactions s) in
      (with_transactions s ts (transactions_id_seq s), inr (found (ts !! i)))
  | SelectUserTransactions u limit offset =>
      if decide (offset < 0) then (s, inl NegativeOffset)
      else
        let after_offset :=
          drop (Z.to_nat offset)
            (order_by_created_at_desc
               (filter (λ t, tx_user_id t = u) (rows (transactions s)))) in
        (s, inr (if decide (limit < 0) then after_offset
                 else take (Z.to_nat limit) after_offset))
  end.

(** ** Handlers as trees of statements *)

Inductive Prog (A : Type) : Type :=
| Return (a : A)
| Throw (e : Error)
| Await {B : Type} (op : DbOp B) (k : B → Prog A).

Arguments Return {A} a.
Arguments Throw {A} e.
Arguments Await {A B} op k.

Notation "'let!' x ':=' op 'in' k" := (Await op (λ x, k))
  (at level 10, x pattern, op at level 100, k at level 200).

(** The call runs alone: no other call touches the database meanwhile. *)
Fixpoint run {A} (p : Prog A) (s : Store) : Store * (Error + A) :=
  match p with
  | Return a => (s, inr a)
  | Throw e => (s, inl e)
  | Await op k =>
      match exec op s with
      | (s', inr b) => run (k b) s'
      | (s', inl e) => (s', inl e)
      end
  end.

(** The call advances to its next [await]. *)
Definition step {A} (p : Prog A) (s : Store) : Store * Prog A :=
  match p with
  | Await op k =>
      match exec op s with
      | (s', inr b) => (s', k b)
      | (s', inl e) => (s', Throw e)
      end
  | _ => (s, p)
  end.

Inductive Turn := First | Second.

(** Two calls in flight: the schedule says which one advances next. *)
Fixpoint schedule {A B} (sched : list Turn) (p : Prog A) (q : Prog B) (s : Store)
    : Store * Prog A * Prog B :=
  match sched with
  | [] => (s, p, q)
  | First :: sched' => let '(s', p') := step p s in schedule sched' p' q s'
  | Second :: sched' => let '(s', q') := step q s in schedule sched' p q' s'
  end.

(** The user whose row the call is about to read, if that is its next
    statement. *)
Definition awaited_user {A} (p : Prog A) : option Z :=
  match p with
  | Await op _ =>
      match op with
      | SelectUser i => Some i
      | _ => None
      end
  | _ => None
  end.

(** After the schedule the first call runs to its end, then the second. *)
Definition interleave {A B} (sched : list Turn) (p : Prog A) (q : Prog B) (s : Store)
    : Store * (Error + A) * (Error + B) :=
  let '(s0, p', q') := schedule sched p q s in
  let '(s1, ra) := run p' s0 in
  let '(s2, rb) := run q' s1 in
  (s2, ra, rb).

(** ** The handlers *)

(** [Math.random() > 0.1] *)
Definition isApiSuccess (env : Env) : bool := negb (Qle_bool (random env) (1 # 10)).

(** Readings of the clock in [processTopUp], in source order: the payment
    reference, the insert's [defaultNow()], the Digiflazz reference, the
    user's [updated_at], the transaction's [updated_at]. *)
Definition processTopUp (env : Env) (input : TopUpInput) : Prog Transaction :=
  (* 1. Validate that the product exists and is active *)
  let! products := SelectActiveProduct (tu_product_id input) in
  match products with
  | [] => Throw ProductNotFoundOrInactive
  | product :: _ =>
    let productPrice := product_price product in
    (* 3.-6., once the validation of step 2 has passed *)
    let validated : Prog Transaction :=
      let transactionData :=
        {| new_user_id := tu_user_id input;
           new_transaction_type := topup;
           new_amount := productPrice;
           new_status := pending;
           new_payment_method := tu_payment_method input;
           new_reference_id :=
             match tu_payment_method input with
             | payment_gateway => Some ("PAY_" +:+ pretty (clock env 0))
             | wallet => None
             end;
           new_product_id := Some (tu_product_id input);
           new_target_number := Some (tu_target_number input);
           new_digiflazz_reference := None |} in
      let! transactionResults := InsertTransaction transactionData (clock env 1) in
      match transactionResults with
      | [] => Throw TypeError
      | transaction :: _ =>
        (* 4. Simulate Digiflazz API call *)
        let digiflazzReference := "DGF_" +:+ pretty (clock env 2) in
        let finalStatus := if isApiSuccess env then completed else failed in
        (* 6. Update transaction status *)
        let finalize : Prog Transaction :=
          let! updatedTransactionResults :=
            UpdateTransaction (tx_id transaction) finalStatus (Some digiflazzReference)
              (clock env 4) in
          match updatedTransactionResults with
          | [] => Throw TypeError
          | finalTransaction :: _ => Return finalTransaction
          end in
        (* 5. If wallet payment and API successful, deduct amount from wallet *)
        match tu_payment_method input, isApiSuccess env with
        | wallet, true =>
            let! currentUsers := SelectUser (tu_user_id input) in
            match currentUsers with
            | [] => Throw TypeError
            | currentUser :: _ =>
              let currentBalance := user_wallet_balance currentUser in
              let newBalance := currentBalance - productPrice in
              let! _ := UpdateUserBalance (tu_user_id input) newBalance (clock env 3) in
              finalize
            end
        | _, _ => finalize
        end
      end in
    (* 2. Check user exists and wallet balance (if paying with wallet) *)
    match tu_payment_method input with
    | wallet =>
        let! users := SelectUser (tu_user_id input) in
        match users with
        | [] => Throw UserNotFound
        | user :: _ =>
          let userBalance := user_wallet_balance user in
          if decide (userBalance < productPrice) then Throw InsufficientWalletBalance
          else validated
        end
    | payment_gateway =>
        let! users := SelectUser (tu_user_id input) in
        match users with
        | [] => Throw UserNotFound
        | _ :: _ => validated
        end
    end
  end.

(** Readings of the clock in [walletDeposit], in source order: the payment
    reference, the insert's [defaultNow()], the user's [updated_at], the
    transaction's [updated_at]. *)
Definition walletDeposit (env : Env) (input : WalletDepositInput) : Prog Transaction :=
  (* 1. Verify user exists *)
  let! users := SelectUser (wd_user_id input) in
  match users with
  | [] => Throw (UserWithIdNotFound (wd_user_id input))
  | currentUser :: _ =>
    (* 2. Create a transaction record with status 'pending' *)
    let referenceId := "PAY_" +:+ pretty (clock env 0) in
    let! transactionResult :=
      InsertTransaction
        {| new_user_id := wd_user_id input;
           new_transaction_type := wallet_deposit;
           new_amount := wd_amount input;
           new_status := pending;
           new_payment_method := wd_payment_method input;
           new_reference_id := Some referenceId;
           new_product_id := None;
           new_target_number := None;
           new_digiflazz_reference := None |} (clock env 1) in
    match transactionResult with
    | [] => Throw TypeError
    | transaction :: _ =>
      (* 3. Simulate payment gateway integration (always successful) *)
      let paymentSuccess := true in
      if paymentSuccess then
        (* 4. Update user's wallet balance on successful payment *)
        let currentBalance := user_wallet_balance currentUser in
        let newBalance := currentBalance + wd_amount input in
        let! _ := UpdateUserBalance (wd_user_id input) newBalance (clock env 2) in
        (* 5. Update transaction status to 'completed' *)
        let! updatedTransactionResult :=
          UpdateTransaction (tx_id transaction) completed None (clock env 3) in
        match updatedTransactionResult with
        | [] => Throw TypeError
        | completedTransaction :: _ => Return completedTransaction
        end
      else
        let! failedTransactionResult :=
          UpdateTransaction (tx_id transaction) failed None (clock env 3) in
        match failedTransactionResult with
        | [] => Throw TypeError
        | failedTransaction :: _ => Return failedTransaction
        end
    end
  end.


Definition getUserTransactions (input : GetUserTransactionsInput) : Prog (list Transaction) :=
  (* Apply pagination defaults *)
  let limit := default 10 (gt_limit input) in
  let offset := default 0 (gt_offset input) in
  let! results := SelectUserTransactions (gt_user_id input) limit offset in
  Return results.

(** ** Input schemas and procedures (schema.ts, index.ts) *)

(** The paths of the issues zod reports, in the order of the schema's fields. *)
Definition issue (ok : bool) (path : string) : list string :=
  if ok then [] else [path].

Definition parse {I} (issues : list string) (input : I) : Error + I :=
  match issues with
  | [] => inr input
  | _ :: _ => inl (ZodError issues)
  end.

(** [amount: z.number().positive()], [payment_method: z.enum(['payment_gateway'])] *)
Definition walletDepositInputSchema (i : WalletDepositInput) : Error + WalletDepositInput :=
  parse (issue (bool_decide (0 < wd_amount i)) "amount" ++
         issue (bool_decide (wd_payment_method i = payment_gateway)) "payment_method") i.

(** The UTF-16 code units a character of the text takes, counted at the
    bytes of its UTF-8 encoding, which is what a string here holds: one at
    the first byte of a character of up to three bytes, two at the first
    byte of a character of four, none at a continuation byte. *)
Definition utf16_units (b : Ascii.ascii) : nat :=
  let n := Ascii.nat_of_ascii b in
  if (n <? 128)%nat then 1%nat
  else if (n <? 192)%nat then 0%nat
  else if (n <? 240)%nat then 1%nat
  else 2%nat.

(** [text.length] in JavaScript. *)
Fixpoint utf16_length (text : string) : nat :=
  match text with
  | EmptyString => 0%nat
  | String b rest => (utf16_units b + utf16_length rest)%nat
  end.

(** [target_number: z.string().min(10)] *)
Definition topUpInputSchema (i : TopUpInput) : Error + TopUpInput :=
  parse (issue (bool_decide (10 ≤ utf16_length (tu_target_number i))%nat) "target_number") i.

(** [publicProcedure.input(schema).mutation(({ input }) => handler(input))] *)
Definition procedure {I O} (schema : I → Error + I) (handler : I → Prog O) (input : I) : Prog O :=
  match schema input with
  | inl e => Throw e
  | inr parsed => handler parsed
  end.

Module appRouter.
Definition walletDeposit (env : Env) := procedure walletDepositInputSchema (walletDeposit env).
Definition processTopUp (env : Env) := procedure topUpInputSchema (processTopUp env).
End appRouter.

(** ** Column types and the errors of the engine (db/schema.ts) *)

(** [serial], [integer]: 32 bits. *)
Definition int4 (i : Z) : Prop := -2147483648 ≤ i ≤ 2147483647.
(** [LIMIT] and [OFFSET] take a [bigint]. *)
Definition int8 (i : Z) : Prop := -9223372036854775808 ≤ i ≤ 9223372036854775807.
(** [numeric(10,2)]: less than 10^8 units, that is 10^10 hundredths, in
    absolute value. *)
Definition numeric_10_2 (m : Money) : Prop := -10000000000 < m < 10000000000.

(** A nullable [integer] column. *)
Definition optional_int4 (o : option Z) : Prop :=
  match o with
  | Some i => int4 i
  | None => True
  end.

Global Instance int4_dec i : Decision (int4 i).
Proof. unfold int4. apply _. Defined.
Global Instance optional_int4_dec o : Decision (optional_int4 o).
Proof. destruct o; cbn; apply _. Defined.
Global Instance int8_dec i : Decision (int8 i).
Proof. unfold int8. apply _. Defined.
Global Instance numeric_10_2_dec m : Decision (numeric_10_2 m).
Proof. unfold numeric_10_2. apply _. Defined.

(** One statement as the engine runs it.  A parameter outside the type of
    its column is refused when the statement is bound and planned, before
    anything runs: an id outside [int4], an amount or balance outside
    [numeric(10,2)], a limit or offset outside [bigint].  An insert then
    takes its id from the sequence, which fails at the end of [int4]. *)
Definition exec_checked {B} (op : DbOp B) (s : Store) : Store * (Error + B) :=
  match op in DbOp B return Store * (Error + B) with
  | SelectActiveProduct i =>
      if decide (int4 i) then exec (SelectActiveProduct i) s
      else (s, inl IntegerOutOfRange)
  | SelectUser i =>
      if decide (int4 i) then exec (SelectUser i) s
      else (s, inl IntegerOutOfRange)
  | InsertTransaction v now =>
      if decide (int4 (new_user_id v) ∧ optional_int4 (new_product_id v)) then
        if decide (numeric_10_2 (new_amount v)) then
          if decide (int4 (transactions_id_seq s + 1)) then exec (InsertTransaction v now) s
          else (s, inl SequenceExhausted)
        else (s, inl NumericFieldOverflow)
      else (s, inl IntegerOutOfRange)
  | UpdateUserBalance i balance updated_at =>
      if decide (int4 i) then
        if decide (numeric_10_2 balance) then exec (UpdateUserBalance i balance updated_at) s
        else (s, inl NumericFieldOverflow)
      else (s, inl IntegerOutOfRange)
  | UpdateTransaction i status dgf updated_at =>
      if decide (int4 i) then exec (UpdateTransaction i status dgf updated_at) s
      else (s, inl IntegerOutOfRange)
  | SelectUserTransactions u limit offset =>
      if decide (int4 u) then
        if decide (limit ≤ 9223372036854775807 ∧ int8 offset)
        then exec (SelectUserTransactions u limit offset) s
        else (s, inl BigintOutOfRange)
      else (s, inl IntegerOutOfRange)
  end.

(** The call runs alone, on the engine. *)
Fixpoint run_checked {A} (p : Prog A) (s : Store) : Store * (Error + A) :=
  match p with
  | Return a => (s, inr a)
  | Throw e => (s, inl e)
  | Await op k =>
      match exec_checked op s with
      | (s', inr b) => run_checked (k b) s'
      | (s', inl e) => (s', inl e)
      end
  end.

(** The call advances to its next [await], on the engine. *)
Definition step_checked {A} (p : Prog A) (s : Store) : Store * Prog A :=
  match p with
  | Await op k =>
      match exec_checked op s with
      | (s', inr b) => (s', k b)
      | (s', inl e) => (s', Throw e)
      end
  | _ => (s, p)
  end.

(** The call advances by [n] statements. *)
Fixpoint advance_checked {A} (n : nat) (p : Prog A) (s : Store) : Store * Prog A :=
  match n with
  | O => (s, p)
  | S n' => let '(s', p') := step_checked p s in advance_checked n' p' s'
  end.

(** Two calls in flight on the engine, as [schedule] and [interleave]. *)
Fixpoint schedule_checked {A B} (sched : list Turn) (p : Prog A) (q : Prog B) (s : Store)
    : Store * Prog A * Prog B :=
  match sched with
  | [] => (s, p, q)
  | First :: sched' => let '(s', p') := step_checked p s in schedule_checked sched' p' q s'
  | Second :: sched' => let '(s', q') := step_checked q s in schedule_checked sched' p q' s'
  end.

Definition interleave_checked {A B} (sched : list Turn) (p : Prog A) (q : Prog B) (s : Store)
    : Store * (Error + A) * (Error + B) :=
  let '(s0, p', q') := schedule_checked sched p q s in
  let '(s1, ra) := run_checked p' s0 in
  let '(s2, rb) := run_checked q' s1 in
  (s2, ra, rb).

(** The errors of the engine, as opposed to those the handlers throw. *)
Definition engine_error (e : Error) : Prop :=
  e = IntegerOutOfRange ∨ e = BigintOutOfRange ∨ e = NumericFieldOverflow ∨
  e = SequenceExhausted.

(** ** The answers a listing may give *)

(** An order in which the engine may return the transactions of user [u]
    for [ORDER BY created_at DESC]: any arrangement of the stored rows of
    the user that is newest first.  Rows created at the same time may come
    in any order. *)
Definition newest_first (s : Store) (u : Z) (l : list Transaction) : Prop :=
  l ≡ₚ filter (λ t, tx_user_id t = u) (rows (transactions s)) ∧
  StronglySorted newer_or_same l.

(** One statement as the engine may answer it.  The listing query is
    answered from any order that is newest first, cut at the offset and,
    where the query builder wrote a [LIMIT], at the limit; every other
    statement, and a listing whose parameters the engine refuses, has the
    one answer of [exec_checked]. *)
Definition may_exec {B} (op : DbOp B) (s : Store) : Store * (Error + B) → Prop :=
  match op in DbOp B return Store * (Error + B) → Prop with
  | SelectUserTransactions u limit offset => λ r,
      if decide (int4 u ∧ limit ≤ 9223372036854775807 ∧
                 0 ≤ offset ≤ 9223372036854775807) then
        ∃ l, newest_first s u l ∧
             let after_offset := drop (Z.to_nat offset) l in
             r = (s, inr (if decide (limit < 0) then after_offset
                          else take (Z.to_nat limit) after_offset))
      else r = exec_checked (SelectUserTransactions u limit offset) s
  | SelectActiveProduct i => λ r, r = exec_checked (SelectActiveProduct i) s
  | SelectUser i => λ r, r = exec_checked (SelectUser i) s
  | InsertTransaction v now => λ r, r = exec_checked (InsertTransaction v now) s
  | UpdateUserBalance i balance updated_at => λ r,
      r = exec_checked (UpdateUserBalance i balance updated_at) s
  | UpdateTransaction i status dgf updated_at => λ r,
      r = exec_checked (UpdateTransaction i status dgf updated_at) s
  end.

(** [r] is an outcome the call may have when it runs alone on the engine. *)
Fixpoint may_run {A} (p : Prog A) (s : Store) (r : Store * (Error + A)) : Prop :=
  match p with
  | Return a => r = (s, inr a)
  | Throw e => r = (s, inl e)
  | Await op k =>
      ∃ s' x, may_exec op s (s', x) ∧
              match x with
              | inr b => may_run (k b) s' r
              | inl e => r = (s', inl e)
              end
  end.

(** The user's rows have pairwise different creation times. *)
Definition distinct_creation_times (s : Store) (u : Z) : Prop :=
  NoDup (tx_created_at <$> filter (λ t, tx_user_id t = u) (rows (transactions s))).

Global Instance distinct_creation_times_dec s u : Decision (distinct_creation_times s u).
Proof. unfold distinct_creation_times. apply _. Defined.

(** ** Well-formed databases and balances *)

(** What the [serial] column guarantees: the sequence is ahead of every key
    of the table, so the next key is free. *)
Definition sequence_ahead (s : Store) : Prop :=
  map_Forall (λ i _, i ≤ transactions_id_seq s) (transactions s).

Global Instance sequence_ahead_dec s : Decision (sequence_ahead s).
Proof. unfold sequence_ahead. apply _. Defined.

(** "Every user's wallet balance is >= 0". *)
Definition balances_nonneg (s : Store) : Prop :=
  map_Forall (λ _ u, 0 ≤ user_wallet_balance u) (users s).

Global Instance balances_nonneg_dec s : Decision (balances_nonneg s).
Proof. unfold balances_nonneg. apply _. Defined.

(** The balance [getUserById] would read for user [i]. *)
Definition balance_of (s : Store) (i : Z) : option Money :=
  user_wallet_balance <$> users s !! i.

(** ** The rows and ledgers the handlers leave *)

(** The row step 3 inserts and the row step 6 leaves. *)
Definition pending_topup (env : Env) (input : TopUpInput) (price : Money) (s : Store)
    : Transaction :=
  new_row (transactions_id_seq s + 1)
    {| new_user_id := tu_user_id input;
       new_transaction_type := topup;
       new_amount := price;
       new_status := pending;
       new_payment_method := tu_payment_method input;
       new_reference_id :=
         match tu_payment_method input with
         | payment_gateway => Some ("PAY_" +:+ pretty (clock env 0))
         | wallet => None
         end;
       new_product_id := Some (tu_product_id input);
       new_target_number := Some (tu_target_number input);
       new_digiflazz_reference := None |} (clock env 1).

Definition final_topup (env : Env) (input : TopUpInput) (price : Money) (s : Store)
    : Transaction :=
  set_tx_status (if isApiSuccess env then completed else failed)
    (Some ("DGF_" +:+ pretty (clock env 2))) (clock env 4)
    (pending_topup env input price s).

Definition topup_ledger (env : Env) (input : TopUpInput) (price : Money) (s : Store)
    : gmap Z Transaction :=
  <[transactions_id_seq s + 1 := final_topup env input price s]>
    (<[transactions_id_seq s + 1 := pending_topup env input price s]> (transactions s)).

Definition pending_deposit (env : Env) (input : WalletDepositInput) (s : Store) : Transaction :=
  new_row (transactions_id_seq s + 1)
    {| new_user_id := wd_user_id input;
       new_transaction_type := wallet_deposit;
       new_amount := wd_amount input;
       new_status := pending;
       new_payment_method := wd_payment_method input;
       new_reference_id := Some ("PAY_" +:+ pretty (clock env 0));
       new_product_id := None;
       new_target_number := None;
       new_digiflazz_reference := None |} (clock env 1).

Definition final_deposit (env : Env) (input : WalletDepositInput) (s : Store) : Transaction :=
  set_tx_status completed None (clock env 3) (pending_deposit env input s).

(** ** The history behind a listing *)

(** The whole history of a user, newest first: what the query orders
    before it cuts the page. *)
Definition history (s : Store) (u : Z) : list Transaction :=
  order_by_created_at_desc (filter (λ t, tx_user_id t = u) (rows (transactions s))).

(** ** Sample data (the fixtures of process_topup.test.ts) *)

Definition sample_user : UserRow :=
  mkUser 1 "test@example.com" "Test User" "08123456789" 10000000 0 0.
Definition sample_low_user : UserRow :=
  mkUser 2 "lowbalance@example.com" "Low Balance User" "08987654321" 500000 0 0.
Definition sample_product : ServiceProductRow :=
  mkProduct 1 1 "TSEL_10K" "Telkomsel 10,000" (Some "Telkomsel prepaid 10,000 rupiah")
    1000000 prepaid "Telkomsel" true 0 0.
Definition sample_inactive_product : ServiceProductRow :=
  mkProduct 2 1 "XL_20K" "XL 20,000" (Some "XL prepaid 20,000 rupiah")
    2000000 prepaid "XL" false 0 0.
Definition sample_store : Store :=
  mkStore (<[1 := sample_user]> (<[2 := sample_low_user]> ∅))
          (<[1 := sample_product]> (<[2 := sample_inactive_product]> ∅)) ∅ 0.

Definition sample_clock : nat → Timestamp := λ n, 1700000000000 + Z.of_nat n.
(** [Math.random()] returns 0.95: the gateway succeeds. *)
Definition env_success : Env := mkEnv sample_clock (95 # 100).
(** [Math.random()] returns 0.05: the gateway fails. *)
Definition env_failure : Env := mkEnv sample_clock (5 # 100).

Definition sample_topup (user product : Z) (method : PaymentMethod) : TopUpInput :=
  mkTopUpInput user product "08123456789" method.


(** ** Tactics *)

(** A decidable fact about concrete data, settled by evaluating its decision. *)
Ltac by_evaluation := apply (bool_decide_unpack _); vm_compute; exact I.

(** ** Calls *)

(** A single call of one of the two mutating handlers. *)
Inductive Call :=
| DepositCall (input : WalletDepositInput)
| TopUpCall (input : TopUpInput).

(** The input satisfies the schema declared for the handler. *)
Definition call_valid (c : Call) : Prop :=
  match c with
  | DepositCall i => walletDepositInputSchema i = inr i
  | TopUpCall i => topUpInputSchema i = inr i
  end.

Definition run_call (env : Env) (c : Call) (s : Store) : Store * (Error + Transaction) :=
  match c with
  | DepositCall i => run (walletDeposit env i) s
  | TopUpCall i => run (processTopUp env i) s
  end.

(** Carrying the call out would leave the caller's balance negative. *)
Definition would_overdraw (c : Call) (s : Store) : Prop :=
  match c with
  | DepositCall i =>
      ∃ user, users s !! wd_user_id i = Some user ∧
              user_wallet_balance user + wd_amount i < 0
  | TopUpCall i =>
      tu_payment_method i = wallet ∧
      ∃ product user,
        service_products s !! tu_product_id i = Some product ∧
        product_is_active product = true ∧
        users s !! tu_user_id i = Some user ∧
        user_wallet_balance user - product_price product < 0
  end.

(** ** Two calls in flight *)

(** Two wallet top-ups of the same user in flight; the balance covers one. *)
Definition race_store : Store :=
  mkStore {[ 1 := mkUser 1 "test@example.com" "Test User" "08123456789" 1000000 0 0 ]}
          {[ 1 := sample_product ]} ∅ 0.

(** Both calls pass the balance check of step 2; the first one then runs to
    its end; the second one inserts its pending row and stands before the
    balance read of step 5. *)
Definition race_schedule : list Turn :=
  [First; Second; First; Second; First; First; First; First; Second].

(** ** A sample ledger *)

(** A completed deposit of user [u], created at time [created]. *)
Definition sample_row (i u : Z) (amount : Money) (created : Timestamp) : Transaction :=
  mkTransaction i u wallet_deposit amount completed payment_gateway None None None None
    created created.

(** Three rows of user 1, created at 10, 30 and 20, and one row of user 2. *)
Definition sample_ledger : Store :=
  mkStore (users sample_store) (service_products sample_store)
    (<[1 := sample_row 1 1 5000 10]> (<[2 := sample_row 2 2 7500 15]>
      (<[3 := sample_row 3 1 2500 30]> (<[4 := sample_row 4 1 1000 20]> ∅)))) 4.

(** Two rows of user 1 created at the same time. *)
Definition tie_ledger : Store :=
  mkStore (users sample_store) (service_products sample_store)
    (<[1 := sample_row 1 1 5000 10]> (<[2 := sample_row 2 1 2500 10]> ∅)) 2.

(** Twelve rows of user 1, row [i] created at time [i]. *)
Definition long_ledger : Store :=
  mkStore (users sample_store) (service_products sample_store)
    (list_to_map ((λ i, (i, sample_row i 1 (1000 * i) i)) <$> seqZ 1 12)) 12.

(** ** Sequences of calls and the ledger's account of a wallet *)

(** A call on the engine. *)
Definition run_call_checked (env : Env) (c : Call) (s : Store)
    : Store * (Error + Transaction) :=
  match c with
  | DepositCall i => run_checked (walletDeposit env i) s
  | TopUpCall i => run_checked (processTopUp env i) s
  end.

(** Calls made one after the other, each with its own environment; a call
    that throws leaves the database to the next one as it is then. *)
Fixpoint run_calls_checked (calls : list (Env * Call)) (s : Store) : Store :=
  match calls with
  | [] => s
  | (env, c) :: calls' => run_calls_checked calls' (run_call_checked env c s).1
  end.

(** What a ledger row says it did to the wallet of user [u]: a completed
    deposit added its amount, a completed top-up paid by wallet took its
    amount, every other row did nothing. *)
Definition wallet_effect (u : Z) (t : Transaction) : Z :=
  if decide (tx_user_id t = u ∧ tx_status t = completed) then
    match tx_transaction_type t, tx_payment_method t with
    | wallet_deposit, _ => tx_amount t
    | topup, wallet => - tx_amount t
    | _, _ => 0
    end
  else 0.

Definition ledger_net (s : Store) (u : Z) : Z :=
  foldr Z.add 0 (wallet_effect u <$> rows (transactions s)).

(** The columns of a user row no statement of the handlers sets. *)
Definition user_identity (u : UserRow) : Z * string * string * string * Timestamp :=
  (user_id u, user_email u, user_name u, user_phone u, user_created_at u).

(** ** The rest of the database: categories and the other sequences *)

Record ServiceCategoryRow := mkCategory {
  category_id : Z;
  category_name : string;
  category_code : string;
  category_description : option string;
  category_is_active : bool;
  category_created_at : Timestamp
}.

(** The tables and sequences the catalog and account handlers use beyond
    those of [Store]. *)
Record Database := mkDatabase {
  store : Store;
  service_categories : gmap Z ServiceCategoryRow;
  users_id_seq : Z;
  service_categories_id_seq : Z;
  service_products_id_seq : Z
}.

Record CreateUserInput := mkCreateUserInput {
  cu_email : string;
  cu_name : string;
  cu_phone : string
}.

(** [description] is optional and nullable: [None] stands for both. *)
Record CreateServiceCategoryInput := mkCreateServiceCategoryInput {
  cc_name : string;
  cc_code : string;
  cc_description : option string
}.

Record CreateServiceProductInput := mkCreateServiceProductInput {
  cp_category_id : Z;
  cp_product_code : string;
  cp_name : string;
  cp_description : option string;
  cp_price : Money;
  cp_type : ServiceType;
  cp_provider : string
}.

Record GetProductsByCategoryInput := mkGetProductsByCategoryInput { gp_category_id : Z }.

(** What these handlers throw or let through from the database. *)
Inductive CatalogError :=
| ServiceCategoryWithIdNotFound (id : Z)  (* `Service category with id ${id} not found` *)
| UniqueConstraint (name : string)        (* duplicate key value violates unique constraint *)
| Refused (e : Error).                    (* a value outside the type of its column *)

Definition with_store (db : Database) (s : Store) : Database :=
  {| store := s; service_categories := service_categories db;
     users_id_seq := users_id_seq db;
     service_categories_id_seq := service_categories_id_seq db;
     service_products_id_seq := service_products_id_seq db |}.


(** The same on the engine. *)
Definition on_store_checked {A} (p : Prog A) (db : Database) : Database * (Error + A) :=
  let '(s', r) := run_checked p (store db) in (with_store db s', r).

(** [insert(usersTable).values({email, name, phone, wallet_balance}).returning()],
    first row.  [id] comes from the sequence, which is advanced even when
    the insert fails; [email] is unique. *)
Definition insert_user (email name phone : string) (balance : Money) (now : Timestamp)
    (db : Database) : Database * (CatalogError + UserRow) :=
  let i := users_id_seq db + 1 in
  let db1 :=
    {| store := store db; service_categories := service_categories db;
       users_id_seq := i;
       service_categories_id_seq := service_categories_id_seq db;
       service_products_id_seq := service_products_id_seq db |} in
  if decide (Exists (λ u, user_email u = email) (rows (users (store db))))
  then (db1, inl (UniqueConstraint "users_email_unique"))
  else
    match users (store db) !! i with
    | Some _ => (db1, inl (UniqueConstraint "users_pkey"))
    | None =>
        let row := mkUser i email name phone balance now now in
        (with_store db1 (with_users (store db) (<[i := row]> (users (store db)))), inr row)
    end.

(** [insert(serviceCategoriesTable).values({name, code, description}).returning()],
    first row.  [is_active] defaults to true; [code] is unique. *)
Definition insert_service_category (name code : string) (description : option string)
    (now : Timestamp) (db : Database) : Database * (CatalogError + ServiceCategoryRow) :=
  let i := service_categories_id_seq db + 1 in
  let db1 (cs : gmap Z ServiceCategoryRow) :=
    {| store := store db; service_categories := cs;
       users_id_seq := users_id_seq db;
       service_categories_id_seq := i;
       service_products_id_seq := service_products_id_seq db |} in
  if decide (Exists (λ c, category_code c = code) (rows (service_categories db)))
  then (db1 (service_categories db), inl (UniqueConstraint "service_categories_code_unique"))
  else
    match service_categories db !! i with
    | Some _ => (db1 (service_categories db), inl (UniqueConstraint "service_categories_pkey"))
    | None =>
        let row := mkCategory i name code description true now in
        (db1 (<[i := row]> (service_categories db)), inr row)
    end.

Definition with_products (s : Store) (ps : gmap Z ServiceProductRow) : Store :=
  {| users := users s; service_products := ps;
     transactions := transactions s; transactions_id_seq := transactions_id_seq s |}.

(** [insert(serviceProductsTable).values({...}).returning()], first row.
    [product_code] is unique. *)
Definition insert_service_product (category : Z) (code name : string)
    (description : option string) (price : Money) (type : ServiceType) (provider : string)
    (is_active : bool) (now : Timestamp) (db : Database)
    : Database * (CatalogError + ServiceProductRow) :=
  let i := service_products_id_seq db + 1 in
  let db1 (s : Store) :=
    {| store := s; service_categories := service_categories db;
       users_id_seq := users_id_seq db;
       service_categories_id_seq := service_categories_id_seq db;
       service_products_id_seq := i |} in
  if decide (Exists (λ p, product_code p = code) (rows (service_products (store db))))
  then (db1 (store db), inl (UniqueConstraint "service_products_product_code_unique"))
  else
    match service_products (store db) !! i with
    | Some _ => (db1 (store db), inl (UniqueConstraint "service_products_pkey"))
    | None =>
        let row := mkProduct i category code name description price type provider
                     is_active now now in
        (db1 (with_products (store db) (<[i := row]> (service_products (store db)))), inr row)
    end.

(** ** The catalog and account handlers *)

(** [x || null] on an optional string: the empty string is falsy. *)
Definition or_null (x : option string) : option string :=
  match x with
  | Some "" => None
  | Some text => Some text
  | None => None
  end.

(** [now] is the database's [defaultNow()] at the insert. *)
Definition createUser (now : Timestamp) (input : CreateUserInput) (db : Database)
    : Database * (CatalogError + UserRow) :=
  (* Insert user record with initial wallet balance of 0 *)
  insert_user (cu_email input) (cu_name input) (cu_phone input) 0 now db.

Definition createServiceCategory (now : Timestamp) (input : CreateServiceCategoryInput)
    (db : Database) : Database * (CatalogError + ServiceCategoryRow) :=
  insert_service_category (cc_name input) (cc_code input) (or_null (cc_description input))
    now db.

Definition createServiceProduct (now : Timestamp) (input : CreateServiceProductInput)
    (db : Database) : Database * (CatalogError + ServiceProductRow) :=
  (* Verify that the category exists first *)
  let categoryExists := found (service_categories db !! cp_category_id input) in
  match categoryExists with
  | [] => (db, inl (ServiceCategoryWithIdNotFound (cp_category_id input)))
  | _ :: _ =>
      (* Insert service product record *)
      insert_service_product (cp_category_id input) (cp_product_code input) (cp_name input)
        (or_null (cp_description input)) (cp_price input) (cp_type input) (cp_provider input)
        true now db
  end.

(** [select().from(serviceProductsTable).where(eq(is_active, true))] *)
Definition getAllProducts (db : Database) : Database * (CatalogError + list ServiceProductRow) :=
  (db, inr (filter (λ p, product_is_active p = true) (rows (service_products (store db))))).

(** [where(and(eq(category_id, input.category_id), eq(is_active, true)))] *)
Definition getProductsByCategory (input : GetProductsByCategoryInput) (db : Database)
    : Database * (CatalogError + list ServiceProductRow) :=
  (db, inr (filter (λ p, product_category_id p = gp_category_id input ∧
                         product_is_active p = true)
              (rows (service_products (store db))))).


(** ** The catalog handlers on the engine *)

(** [createServiceProduct] as the engine runs its statements: the category
    id is refused outside [int4], the price outside [numeric(10,2)], and the
    insert fails when the sequence of the ids is at the end of [int4]. *)
Definition createServiceProduct_checked (now : Timestamp) (input : CreateServiceProductInput)
    (db : Database) : Database * (CatalogError + ServiceProductRow) :=
  (* Verify that the category exists first *)
  if decide (int4 (cp_category_id input)) then
    let categoryExists := found (service_categories db !! cp_category_id input) in
    match categoryExists with
    | [] => (db, inl (ServiceCategoryWithIdNotFound (cp_category_id input)))
    | _ :: _ =>
        (* Insert service product record *)
        if decide (numeric_10_2 (cp_price input)) then
          if decide (int4 (service_products_id_seq db + 1)) then
            insert_service_product (cp_category_id input) (cp_product_code input)
              (cp_name input) (or_null (cp_description input)) (cp_price input)
              (cp_type input) (cp_provider input) true now db
          else (db, inl (Refused SequenceExhausted))
        else (db, inl (Refused NumericFieldOverflow))
    end
  else (db, inl (Refused IntegerOutOfRange)).

(** [getProductsByCategory] likewise. *)
Definition getProductsByCategory_checked (input : GetProductsByCategoryInput) (db : Database)
    : Database * (CatalogError + list ServiceProductRow) :=
  if decide (int4 (gp_category_id input)) then getProductsByCategory input db
  else (db, inl (Refused IntegerOutOfRange)).

(** ** Well-formed catalogs *)

(** Each sequence is ahead of the keys of its table. *)
Definition users_ahead (db : Database) : Prop :=
  map_Forall (λ i _, i ≤ users_id_seq db) (users (store db)).
Definition products_ahead (db : Database) : Prop :=
  map_Forall (λ i _, i ≤ service_products_id_seq db) (service_products (store db)).
Definition categories_ahead (db : Database) : Prop :=
  map_Forall (λ i _, i ≤ service_categories_id_seq db) (service_categories db).

(** A product row is stored under its own id. *)
Definition products_keyed (s : Store) : Prop :=
  map_Forall (λ i p, product_id p = i) (service_products s).

Global Instance users_ahead_dec db : Decision (users_ahead db).
Proof. unfold users_ahead. apply _. Defined.
Global Instance products_ahead_dec db : Decision (products_ahead db).
Proof. unfold products_ahead. apply _. Defined.
Global Instance categories_ahead_dec db : Decision (categories_ahead db).
Proof. unfold categories_ahead. apply _. Defined.
Global Instance products_keyed_dec s : Decision (products_keyed s).
Proof. unfold products_keyed. apply _. Defined.

(** The sample store with one category and the sequences after the
    fixtures were inserted. *)
Definition sample_category : ServiceCategoryRow :=
  mkCategory 1 "Mobile Prepaid" "MOBILE_PREPAID" (Some "Mobile prepaid top-up services") true 0.
Definition sample_database : Database :=
  mkDatabase sample_store {[ 1 := sample_category ]} 2 1 2.

(** ** The history view of the client (TransactionHistory.tsx) *)

Record GroupedTransactions := mkGroupedTransactions {
  g_all : list Transaction;
  g_deposits : list Transaction;
  g_topups : list Transaction;
  g_withdrawals : list Transaction
}.

Definition groupedTransactions (transactions : list Transaction) : GroupedTransactions :=
  let all := transactions in
  let deposits := filter (λ t, tx_transaction_type t = wallet_deposit) transactions in
  let topups := filter (λ t, tx_transaction_type t = topup) transactions in
  let withdrawals := filter (λ t, tx_transaction_type t = wallet_withdrawal) transactions in
  {| g_all := all; g_deposits := deposits; g_topups := topups; g_withdrawals := withdrawals |}.

(** * Proofs *)

(** ** Statements: what each one returns *)

Lemma next_id_free s :
  sequence_ahead s → transactions s !! (transactions_id_seq s + 1) = None.
Proof.
  intros Hseq. destruct (transactions s !! (transactions_id_seq s + 1)) eqn:E; [|done].
  apply Hseq in E. lia.
Qed.

Lemma exec_select_active_some s i p :
  service_products s !! i = Some p → product_is_active p = true →
  exec (SelectActiveProduct i) s = (s, inr [p]).
Proof. intros Hp Ha. cbn. rewrite Hp. cbn. rewrite decide_True by done. done. Qed.

Lemma exec_select_active_none s i :
  (service_products s !! i = None ∨
   ∃ p, service_products s !! i = Some p ∧ product_is_active p = false) →
  exec (SelectActiveProduct i) s = (s, inr []).
Proof.
  intros [Hn | (p & Hp & Ha)]; cbn.
  - by rewrite Hn.
  - rewrite Hp. cbn. rewrite decide_False; [done | congruence].
Qed.

Lemma exec_select_user s i u :
  users s !! i = Some u → exec (SelectUser i) s = (s, inr [u]).
Proof. intros Hu. cbn. by rewrite Hu. Qed.

Lemma exec_insert_fresh s v now :
  sequence_ahead s →
  let i := transactions_id_seq s + 1 in
  exec (InsertTransaction v now) s =
    (with_transactions s (<[i := new_row i v now]> (transactions s)) i,
     inr [new_row i v now]).
Proof. intros Hseq. cbn. by rewrite next_id_free. Qed.

Lemma exec_update_transaction s i status dgf at' t :
  transactions s !! i = Some t →
  exec (UpdateTransaction i status dgf at') s =
    (with_transactions s (<[i := set_tx_status status dgf at' t]> (transactions s))
       (transactions_id_seq s),
     inr [set_tx_status status dgf at' t]).
Proof.
  intros Ht. cbn.
  assert (alter (set_tx_status status dgf at') i (transactions s)
          = <[i := set_tx_status status dgf at' t]> (transactions s)) as ->.
  { apply map_eq. intros j. rewrite lookup_alter, lookup_insert.
    destruct (decide (i = j)) as [<-|]; [by rewrite Ht | done]. }
  by rewrite lookup_insert_eq.
Qed.

Lemma run_await {A B} (op : DbOp B) (k : B → Prog A) s :
  run (Await op k) s =
    match exec op s with
    | (s', inr b) => run (k b) s'
    | (s', inl e) => (s', inl e)
    end.
Proof. reflexivity. Qed.

(** ** The sequence stays ahead of the table *)

Lemma exec_sequence_ahead {B} (op : DbOp B) s :
  sequence_ahead s → sequence_ahead (exec op s).1.
Proof.
  intros Hseq. destruct op; cbn [exec]; try done.
  - destruct (transactions s !! (transactions_id_seq s + 1)) eqn:E; cbn.
    + intros j row Hj. apply Hseq in Hj. cbn. lia.
    + apply map_Forall_insert_2; [cbn; lia|].
      intros j row Hj. apply Hseq in Hj. cbn. lia.
  - intros j row. cbn. rewrite lookup_alter.
    destruct (decide (i = j)) as [<-|]; [|apply Hseq].
    destruct (transactions s !! i) eqn:E; [|done].
    intros _. by apply Hseq in E.
  - by case_decide.
Qed.

(** Every run of a handler keeps the invariant, so every database reached
    from an empty one has it. *)
Lemma run_sequence_ahead {A} (p : Prog A) s :
  sequence_ahead s → sequence_ahead (run p s).1.
Proof.
  revert s. induction p as [a | e | B op k IH]; intros s Hseq; cbn [run]; try done.
  pose proof (exec_sequence_ahead op s Hseq) as Hexec.
  destruct (exec op s) as [s' [e | b]]; [done|]. by apply IH.
Qed.

(** ** [processTopUp]: the runs of the handler *)

(** Validation fails on the product: nothing is written. *)
Lemma processTopUp_product_rejected env input s :
  (service_products s !! tu_product_id input = None ∨
   ∃ p, service_products s !! tu_product_id input = Some p ∧ product_is_active p = false) →
  run (processTopUp env input) s = (s, inl ProductNotFoundOrInactive).
Proof.
  intros H. unfold processTopUp.
  by rewrite run_await, exec_select_active_none.
Qed.

(** Validation fails on the balance: nothing is written. *)
Lemma processTopUp_balance_rejected env input s product user :
  service_products s !! tu_product_id input = Some product →
  product_is_active product = true →
  users s !! tu_user_id input = Some user →
  tu_payment_method input = wallet →
  user_wallet_balance user < product_price product →
  run (processTopUp env input) s = (s, inl InsufficientWalletBalance).
Proof.
  intros Hp Ha Hu Hw Hlt. unfold processTopUp.
  rewrite run_await, (exec_select_active_some _ _ _ Hp Ha), Hw.
  rewrite run_await, (exec_select_user _ _ _ Hu).
  by rewrite decide_True.
Qed.

(** Wallet payment, gateway success: the debit and the finalization. *)
Lemma processTopUp_wallet_debited env input s product user :
  sequence_ahead s →
  service_products s !! tu_product_id input = Some product →
  product_is_active product = true →
  users s !! tu_user_id input = Some user →
  product_price product ≤ user_wallet_balance user →
  tu_payment_method input = wallet →
  isApiSuccess env = true →
  run (processTopUp env input) s =
    ({| users :=
          alter (set_user_balance (user_wallet_balance user - product_price product)
                   (clock env 3)) (tu_user_id input) (users s);
        service_products := service_products s;
        transactions := topup_ledger env input (product_price product) s;
        transactions_id_seq := transactions_id_seq s + 1 |},
     inr (final_topup env input (product_price product) s)).
Proof.
  intros Hseq Hp Ha Hu Hb Hw Hok. unfold processTopUp.
  rewrite run_await, (exec_select_active_some _ _ _ Hp Ha), Hw, Hok.
  rewrite run_await, (exec_select_user _ _ _ Hu).
  rewrite decide_False by lia.
  rewrite run_await, exec_insert_fresh by done.
  rewrite run_await, (exec_select_user _ _ user) by done.
  rewrite run_await. cbn [exec].
  rewrite run_await.
  erewrite exec_update_transaction by apply lookup_insert_eq.
  unfold topup_ledger, final_topup, pending_topup. rewrite Hw, Hok. reflexivity.
Qed.

(** Gateway failure, or payment through the gateway: no debit. *)
Lemma processTopUp_not_debited env input s product user :
  sequence_ahead s →
  service_products s !! tu_product_id input = Some product →
  product_is_active product = true →
  users s !! tu_user_id input = Some user →
  (tu_payment_method input = wallet →
   product_price product ≤ user_wallet_balance user ∧ isApiSuccess env = false) →
  run (processTopUp env input) s =
    ({| users := users s;
        service_products := service_products s;
        transactions := topup_ledger env input (product_price product) s;
        transactions_id_seq := transactions_id_seq s + 1 |},
     inr (final_topup env input (product_price product) s)).
Proof.
  intros Hseq Hp Ha Hu Hcase. unfold processTopUp.
  rewrite run_await, (exec_select_active_some _ _ _ Hp Ha).
  unfold topup_ledger, final_topup, pending_topup.
  destruct (tu_payment_method input) eqn:Hm.
  - destruct Hcase as [Hb Hko]; [done|]. rewrite Hko.
    rewrite run_await, (exec_select_user _ _ _ Hu).
    rewrite decide_False by lia.
    rewrite run_await, exec_insert_fresh by done.
    rewrite run_await.
    erewrite exec_update_transaction by apply lookup_insert_eq.
    reflexivity.
  - rewrite run_await, (exec_select_user _ _ _ Hu).
    rewrite run_await, exec_insert_fresh by done.
    rewrite run_await.
    erewrite exec_update_transaction by apply lookup_insert_eq.
    reflexivity.
Qed.

(** Whatever the run, the users table is left as it was or the caller's
    row is debited by a price its balance covered. *)
Lemma processTopUp_users env input s :
  users (run (processTopUp env input) s).1 = users s ∨
  ∃ product user,
    service_products s !! tu_product_id input = Some product ∧
    users s !! tu_user_id input = Some user ∧
    product_price product ≤ user_wallet_balance user ∧
    users (run (processTopUp env input) s).1 =
      alter (set_user_balance (user_wallet_balance user - product_price product)
               (clock env 3)) (tu_user_id input) (users s).
Proof.
  unfold processTopUp. rewrite run_await. cbn [exec].
  destruct (service_products s !! tu_product_id input) as [product|] eqn:Hp;
    [|by left].
  cbn [found]. rewrite filter_cons, filter_nil.
  destruct (decide (product_is_active product = true)); [|by left].
  destruct (tu_payment_method input) eqn:Hm.
  - rewrite run_await. cbn [exec].
    destruct (users s !! tu_user_id input) as [user|] eqn:Hu; [|by left].
    cbn [found].
    destruct (decide (user_wallet_balance user < product_price product)); [by left|].
    rewrite run_await. cbn [exec].
    destruct (transactions s !! (transactions_id_seq s + 1)); [by left|].
    destruct (isApiSuccess env).
    + right. exists product, user. repeat split; [lia|].
      rewrite run_await. cbn [exec users with_transactions]. rewrite Hu. cbn [found].
      rewrite run_await. cbn [exec].
      rewrite run_await. cbn [exec].
      match goal with |- context [found ?o] => destruct o end; reflexivity.
    + left. rewrite run_await. cbn [exec].
      match goal with |- context [found ?o] => destruct o end; reflexivity.
  - rewrite run_await. cbn [exec].
    destruct (users s !! tu_user_id input) as [user|] eqn:Hu; [|by left].
    cbn [found]. left.
    rewrite run_await. cbn [exec].
    destruct (transactions s !! (transactions_id_seq s + 1)); [done|].
    assert (∀ k : Prog Transaction,
      match isApiSuccess env with true => k | false => k end = k) as Hsame
      by (intros; by destruct (isApiSuccess env)).
    rewrite ?Hsame.
    rewrite run_await. cbn [exec].
    match goal with |- context [found ?o] => destruct o end; reflexivity.
Qed.

(** ** [walletDeposit]: the runs of the handler *)

Lemma walletDeposit_credited env input s user :
  sequence_ahead s →
  users s !! wd_user_id input = Some user →
  run (walletDeposit env input) s =
    ({| users :=
          alter (set_user_balance (user_wallet_balance user + wd_amount input)
                   (clock env 2)) (wd_user_id input) (users s);
        service_products := service_products s;
        transactions :=
          <[transactions_id_seq s + 1 := final_deposit env input s]>
            (<[transactions_id_seq s + 1 := pending_deposit env input s]> (transactions s));
        transactions_id_seq := transactions_id_seq s + 1 |},
     inr (final_deposit env input s)).
Proof.
  intros Hseq Hu. unfold walletDeposit.
  rewrite run_await, (exec_select_user _ _ _ Hu).
  rewrite run_await, exec_insert_fresh by done.
  rewrite run_await. cbn [exec].
  rewrite run_await.
  erewrite exec_update_transaction by apply lookup_insert_eq.
  reflexivity.
Qed.

Lemma walletDeposit_users env input s :
  users (run (walletDeposit env input) s).1 = users s ∨
  ∃ user,
    users s !! wd_user_id input = Some user ∧
    users (run (walletDeposit env input) s).1 =
      alter (set_user_balance (user_wallet_balance user + wd_amount input)
               (clock env 2)) (wd_user_id input) (users s).
Proof.
  unfold walletDeposit. rewrite run_await. cbn [exec].
  destruct (users s !! wd_user_id input) as [user|] eqn:Hu; [|by left].
  cbn [found]. rewrite run_await. cbn [exec].
  destruct (transactions s !! (transactions_id_seq s + 1)); [by left|].
  right. exists user. split; [done|].
  rewrite run_await. cbn [exec].
  rewrite run_await. cbn [exec].
  match goal with |- context [found ?o] => destruct o end; reflexivity.
Qed.

Lemma balances_nonneg_alter s i u c at' :
  balances_nonneg s → 0 ≤ c →
  users s !! i = Some u →
  map_Forall (λ _ u, 0 ≤ user_wallet_balance u)
    (alter (set_user_balance c at') i (users s)).
Proof.
  intros Hs Hc Hu j v. rewrite lookup_alter.
  destruct (decide (i = j)) as [<-|].
  - rewrite Hu. cbn. by intros [= <-].
  - apply Hs.
Qed.

Lemma balance_of_alter (m : gmap Z UserRow) i u c at' :
  m !! i = Some u →
  user_wallet_balance <$> alter (set_user_balance c at') i m !! i = Some c.
Proof. intros Hu. by rewrite lookup_alter_eq, Hu. Qed.

(** ** [getUserTransactions]: the listing *)

Global Instance newer_or_same_trans : Transitive newer_or_same.
Proof. unfold newer_or_same. intros a b c ? ?. lia. Qed.

Global Instance newer_or_same_total : Total newer_or_same.
Proof. unfold newer_or_same. intros a b. lia. Qed.

Lemma history_sorted s u : StronglySorted newer_or_same (history s u).
Proof. apply StronglySorted_merge_sort; apply _. Qed.

Lemma history_permutation s u :
  history s u ≡ₚ filter (λ t, tx_user_id t = u) (rows (transactions s)).
Proof. apply merge_sort_Permutation. Qed.

Lemma page_sorted (l : list Transaction) n m :
  StronglySorted newer_or_same l → StronglySorted newer_or_same (take n (drop m l)).
Proof.
  intros Hl.
  rewrite <- (take_drop m l) in Hl. apply StronglySorted_app_1_r in Hl.
  rewrite <- (take_drop n (drop m l)) in Hl. by apply StronglySorted_app_1_l in Hl.
Qed.

Lemma page_restart {A} (l : list A) o a b :
  take a (drop o l) ++ take b (drop (o + a) l) = take (a + b) (drop o l).
Proof. by rewrite <- drop_drop, take_take_drop. Qed.


Lemma walletDepositInputSchema_valid input :
  walletDepositInputSchema input = inr input → 0 < wd_amount input.
Proof.
  unfold walletDepositInputSchema.
  repeat case_bool_decide; cbn; try discriminate; done.
Qed.

(** ** Statements and handlers on the engine *)

Lemma run_checked_await {A B} (op : DbOp B) (k : B → Prog A) s :
  run_checked (Await op k) s =
    match exec_checked op s with
    | (s', inr b) => run_checked (k b) s'
    | (s', inl e) => (s', inl e)
    end.
Proof. reflexivity. Qed.

Lemma exec_checked_select_active s i :
  int4 i → exec_checked (SelectActiveProduct i) s = exec (SelectActiveProduct i) s.
Proof. intros Hi. cbn [exec_checked]. by rewrite decide_True. Qed.

Lemma exec_checked_select_user s i :
  int4 i → exec_checked (SelectUser i) s = exec (SelectUser i) s.
Proof. intros Hi. cbn [exec_checked]. by rewrite decide_True. Qed.

Lemma exec_checked_insert s v now :
  int4 (new_user_id v) → optional_int4 (new_product_id v) →
  int4 (transactions_id_seq s + 1) → numeric_10_2 (new_amount v) →
  exec_checked (InsertTransaction v now) s = exec (InsertTransaction v now) s.
Proof. intros Hu Hp Hi Ha. cbn [exec_checked]. by rewrite !decide_True. Qed.

Lemma exec_checked_update_balance s i balance at' :
  int4 i → numeric_10_2 balance →
  exec_checked (UpdateUserBalance i balance at') s = exec (UpdateUserBalance i balance at') s.
Proof. intros Hi Hb. cbn [exec_checked]. by rewrite !decide_True. Qed.

Lemma exec_checked_update_transaction s i status dgf at' :
  int4 i →
  exec_checked (UpdateTransaction i status dgf at') s
    = exec (UpdateTransaction i status dgf at') s.
Proof. intros Hi. cbn [exec_checked]. by rewrite decide_True. Qed.

(** On values that fit their columns the engine runs [walletDeposit] as
    [run] does. *)
Lemma walletDeposit_checked_agrees env input s user :
  sequence_ahead s →
  users s !! wd_user_id input = Some user →
  int4 (wd_user_id input) →
  int4 (transactions_id_seq s + 1) →
  numeric_10_2 (wd_amount input) →
  numeric_10_2 (user_wallet_balance user + wd_amount input) →
  run_checked (walletDeposit env input) s = run (walletDeposit env input) s.
Proof.
  intros Hseq Hu Hid Hnext Ha Hb. unfold walletDeposit.
  rewrite run_checked_await, run_await, exec_checked_select_user by done.
  rewrite (exec_select_user _ _ _ Hu).
  rewrite run_checked_await, run_await, exec_checked_insert by done.
  rewrite exec_insert_fresh by done.
  rewrite run_checked_await, run_await, exec_checked_update_balance by done.
  cbn [exec].
  rewrite run_checked_await, run_await, exec_checked_update_transaction by done.
  erewrite exec_update_transaction by apply lookup_insert_eq.
  reflexivity.
Qed.

(** The same for [processTopUp] when the validation passes. *)
Lemma processTopUp_checked_agrees env input s product user :
  sequence_ahead s →
  service_products s !! tu_product_id input = Some product →
  product_is_active product = true →
  users s !! tu_user_id input = Some user →
  int4 (tu_product_id input) →
  int4 (tu_user_id input) →
  int4 (transactions_id_seq s + 1) →
  numeric_10_2 (product_price product) →
  (tu_payment_method input = wallet →
   product_price product ≤ user_wallet_balance user ∧
   (isApiSuccess env = true →
    numeric_10_2 (user_wallet_balance user - product_price product))) →
  run_checked (processTopUp env input) s = run (processTopUp env input) s.
Proof.
  intros Hseq Hp Ha Hu Hpid Huid Hnext Hprice Hwallet. unfold processTopUp.
  rewrite run_checked_await, run_await, exec_checked_select_active by done.
  rewrite (exec_select_active_some _ _ _ Hp Ha).
  destruct (tu_payment_method input) eqn:Hm.
  - destruct Hwallet as [Hb Hdebit]; [done|].
    rewrite run_checked_await, run_await, exec_checked_select_user by done.
    rewrite (exec_select_user _ _ _ Hu).
    rewrite decide_False by lia.
    rewrite run_checked_await, run_await, exec_checked_insert by done.
    rewrite exec_insert_fresh by done.
    destruct (isApiSuccess env) eqn:Hok.
    + rewrite run_checked_await, run_await, exec_checked_select_user by done.
      rewrite (exec_select_user _ _ user) by done.
      rewrite run_checked_await, run_await, exec_checked_update_balance by auto.
      cbn [exec].
      rewrite run_checked_await, run_await, exec_checked_update_transaction by done.
      erewrite exec_update_transaction by apply lookup_insert_eq.
      reflexivity.
    + rewrite run_checked_await, run_await, exec_checked_update_transaction by done.
      erewrite exec_update_transaction by apply lookup_insert_eq.
      reflexivity.
  - rewrite run_checked_await, run_await, exec_checked_select_user by done.
    rewrite (exec_select_user _ _ _ Hu).
    rewrite run_checked_await, run_await, exec_checked_insert by done.
    rewrite exec_insert_fresh by done.
    rewrite run_checked_await, run_await, exec_checked_update_transaction by done.
    erewrite exec_update_transaction by apply lookup_insert_eq.
    reflexivity.
Qed.


(** ** Listings: every answer the engine may give *)

Lemma fmap_NoDup_inj {A B} (f : A → B) (l : list A) x y :
  NoDup (f <$> l) → x ∈ l → y ∈ l → f x = f y → x = y.
Proof.
  induction l as [|a l IH]; intros Hnd Hx Hy Hf; [by apply elem_of_nil in Hx|].
  rewrite fmap_cons in Hnd. apply NoDup_cons in Hnd as [Ha Hnd].
  apply elem_of_cons in Hx as [->|Hx]; apply elem_of_cons in Hy as [->|Hy];
    [done| | |by apply IH].
  - exfalso. apply Ha. rewrite Hf. by apply list_elem_of_fmap_2.
  - exfalso. apply Ha. rewrite <- Hf. by apply list_elem_of_fmap_2.
Qed.

Lemma history_newest_first s u : newest_first s u (history s u).
Proof. split; [apply history_permutation | apply history_sorted]. Qed.

(** With distinct creation times the engine has no choice. *)
Lemma newest_first_unique s u l :
  distinct_creation_times s u → newest_first s u l → l = history s u.
Proof.
  intros Hdistinct [Hperm Hsorted].
  apply (StronglySorted_unique_strong newer_or_same); [|done|apply history_sorted|].
  - intros x1 x2 Hx1 Hx2 H12 H21. unfold newer_or_same in *.
    rewrite Hperm in Hx1. rewrite history_permutation in Hx2.
    apply (fmap_NoDup_inj tx_created_at _ x1 x2 Hdistinct Hx1 Hx2). lia.
  - by rewrite Hperm, history_permutation.
Qed.

(** The outcomes of [getUserTransactions] on parameters the engine takes:
    the pages cut out of the orders that are newest first. *)
Lemma getUserTransactions_may_run input s r :
  int4 (gt_user_id input) →
  0 ≤ default 10 (gt_limit input) ≤ 9223372036854775807 →
  0 ≤ default 0 (gt_offset input) ≤ 9223372036854775807 →
  may_run (getUserTransactions input) s r ↔
  ∃ l, newest_first s (gt_user_id input) l ∧
       r = (s, inr (take (Z.to_nat (default 10 (gt_limit input)))
                      (drop (Z.to_nat (default 0 (gt_offset input))) l))).
Proof.
  intros Hu Hl Ho. unfold getUserTransactions. cbn [may_run may_exec].
  split.
  - intros (s' & x & Hexec & Hrest).
    rewrite decide_True in Hexec by (split; [done|lia]).
    destruct Hexec as (l & Hl' & Hr). cbn zeta in Hr.
    rewrite decide_False in Hr by lia.
    injection Hr as -> ->. exists l. by split.
  - intros (l & Hl' & ->). eexists _, _. split.
    + rewrite decide_True by (split; [done|lia]).
      exists l. split; [done|]. cbn zeta. rewrite decide_False by lia. reflexivity.
    + reflexivity.
Qed.

(** What [run_checked] answers is one of them. *)
Lemma getUserTransactions_checked_may_run input s :
  int4 (gt_user_id input) →
  0 ≤ default 10 (gt_limit input) ≤ 9223372036854775807 →
  0 ≤ default 0 (gt_offset input) ≤ 9223372036854775807 →
  may_run (getUserTransactions input) s (run_checked (getUserTransactions input) s).
Proof.
  intros Hu Hl Ho. apply getUserTransactions_may_run; [done..|].
  exists (history s (gt_user_id input)). split; [apply history_newest_first|].
  unfold getUserTransactions. rewrite run_checked_await. cbn [exec_checked].
  rewrite decide_True by done.
  rewrite decide_True by (unfold int8; lia).
  cbn [exec]. rewrite !decide_False by lia. reflexivity.
Qed.

(** ** The claims *)



(** C2: from a database where every balance is >= 0, one [walletDeposit] or
    [processTopUp] call with a schema-valid input, run on its own, leaves
    every balance >= 0 whatever the gateway answers; and a call that would
    overdraw is rejected with the database exactly as it was. *)
Theorem C2_balances_stay_nonneg env c s :
  balances_nonneg s →
  call_valid c →
  balances_nonneg (run_call env c s).1 ∧
  (would_overdraw c s → ∃ e, run_call env c s = (s, inl e)).
Proof.
  intros Hs Hvalid. destruct c as [i | i]; cbn [run_call would_overdraw call_valid] in *.
  - apply walletDepositInputSchema_valid in Hvalid. split.
    + unfold balances_nonneg.
      destruct (walletDeposit_users env i s) as [-> | (user & Hu & ->)]; [done|].
      eapply balances_nonneg_alter; [done| |done].
      specialize (Hs _ _ Hu). cbn in Hs. lia.
    + intros (user & Hu & Hneg). specialize (Hs _ _ Hu). cbn in Hs. lia.
  - split.
    + unfold balances_nonneg.
      destruct (processTopUp_users env i s) as [-> | (product & user & Hp & Hu & Hb & ->)];
        [done|].
      eapply balances_nonneg_alter; [done| |done]. lia.
    + intros (Hw & product & user & Hp & Ha & Hu & Hneg).
      exists InsufficientWalletBalance.
      eapply processTopUp_balance_rejected; eauto. lia.
Qed.

Lemma C2_witness :
  balances_nonneg sample_store ∧
  would_overdraw (TopUpCall (sample_topup 2 1 wallet)) sample_store ∧
  balances_nonneg (run_call env_success (TopUpCall (sample_topup 2 1 wallet)) sample_store).1 ∧
  ∃ e, run_call env_success (TopUpCall (sample_topup 2 1 wallet)) sample_store
       = (sample_store, inl e).
Proof.
  assert (balances_nonneg sample_store) as Hs by by_evaluation.
  assert (would_overdraw (TopUpCall (sample_topup 2 1 wallet)) sample_store) as Hover.
  { split; [reflexivity|]. exists sample_product, sample_low_user.
    repeat split; by vm_compute. }
  destruct (C2_balances_stay_nonneg env_success (TopUpCall (sample_topup 2 1 wallet))
              sample_store Hs eq_refl) as [Hafter Hrejected].
  auto.
Defined.

(** C3: active product of price p, existing user, payment by wallet, balance
    strictly below p: [processTopUp] throws 'Insufficient wallet balance'
    and the database (balances, transaction rows, sequence) is unchanged. *)
Theorem C3_insufficient_balance_rejected env input s product user :
  service_products s !! tu_product_id input = Some product →
  product_is_active product = true →
  users s !! tu_user_id input = Some user →
  tu_payment_method input = wallet →
  user_wallet_balance user < product_price product →
  run (processTopUp env input) s = (s, inl InsufficientWalletBalance).
Proof. apply processTopUp_balance_rejected. Qed.

Lemma C3_witness :
  run (processTopUp env_success (sample_topup 2 1 wallet)) sample_store
  = (sample_store, inl InsufficientWalletBalance).
Proof.
  apply (C3_insufficient_balance_rejected env_success (sample_topup 2 1 wallet) sample_store
           sample_product sample_low_user);
    first [ reflexivity | by vm_compute ].
Defined.

(** C4, as the spec states it, fails.  No product has the id 2147483648,
    which is a number the schema lets through; the lookup of step 1 ends in
    the range error of the [integer] column, not in 'Product not found or
    inactive'.  Nothing is written. *)
Lemma C4_counterexample :
  service_products sample_store !! 2147483648 = None ∧
  run_checked (processTopUp env_success (sample_topup 1 2147483648 wallet)) sample_store
    = (sample_store, inl IntegerOutOfRange) ∧
  IntegerOutOfRange ≠ ProductNotFoundOrInactive.
Proof. split; [reflexivity|]. split; [vm_compute; reflexivity | discriminate]. Qed.

(** C4, amended: the product id is an integer that is unknown, or the
    product is inactive.  For an id of the range of the [integer] column
    [processTopUp] throws 'Product not found or inactive'; for an id outside
    of it the lookup throws the range error of the database.  Either way the
    database is unchanged, for wallet and gateway payment alike. *)
Theorem C4_missing_or_inactive_product_rejected env input s :
  (service_products s !! tu_product_id input = None ∨
   ∃ p, service_products s !! tu_product_id input = Some p ∧ product_is_active p = false) →
  run_checked (processTopUp env input) s
    = (s, inl (if decide (int4 (tu_product_id input)) then ProductNotFoundOrInactive
               else IntegerOutOfRange)).
Proof.
  intros H. unfold processTopUp. rewrite run_checked_await. cbn [exec_checked].
  case_decide; [by rewrite exec_select_active_none | done].
Qed.

Lemma C4_witness :
  run_checked (processTopUp env_success (sample_topup 1 2 wallet)) sample_store
    = (sample_store, inl ProductNotFoundOrInactive) ∧
  run_checked (processTopUp env_success (sample_topup 1 99999 payment_gateway)) sample_store
    = (sample_store, inl ProductNotFoundOrInactive) ∧
  run_checked (processTopUp env_success (sample_topup 1 4294967296 payment_gateway))
      sample_store
    = (sample_store, inl IntegerOutOfRange).
Proof.
  split; [|split].
  - apply (C4_missing_or_inactive_product_rejected env_success (sample_topup 1 2 wallet)).
    right. exists sample_inactive_product. by vm_compute.
  - apply (C4_missing_or_inactive_product_rejected env_success
             (sample_topup 1 99999 payment_gateway)).
    left. by vm_compute.
  - apply (C4_missing_or_inactive_product_rejected env_success
             (sample_topup 1 4294967296 payment_gateway)).
    left. by vm_compute.
Defined.



(** C6, as the spec states it, fails.  Two wallet top-ups of one user whose
    balance covers one of them, both with a successful gateway.  When the
    second call stands before the balance read of step 5 the balance is 0,
    below the price 1000000; the call still ends completed, not failed, and
    reduces the balance to -1000000. *)
Lemma C6_counterexample :
  let call := processTopUp env_success (sample_topup 1 1 wallet) in
  let at_debit := schedule race_schedule call call race_store in
  isApiSuccess env_success = true ∧
  awaited_user at_debit.2 = Some 1 ∧
  balance_of at_debit.1.1 1 = Some 0 ∧
  product_price sample_product = 1000000 ∧
  match interleave race_schedule call call race_store with
  | (s', inr first, inr second) =>
      tx_status first = completed ∧
      tx_status second = completed ∧
      tx_status second ≠ failed ∧
      balance_of s' 1 = Some (-1000000)
  | _ => False
  end.
Proof.
  cbv zeta. repeat apply conj; try (vm_compute; reflexivity).
  vm_compute. repeat apply conj; try reflexivity. discriminate.
Qed.

(** C6, amended: a debit that fails never ends in a failed transaction.
    The validation passed, the pending row is inserted and the gateway
    succeeded; ids and price fit their columns.  Whatever the users table
    holds when step 5 reads it:
    - the caller's row holds a balance c and c - p fits the column: the call
      writes c - p, also when c < p, and ends completed;
    - c - p does not fit the column: the update throws, the balance stays
      and the transaction stays pending;
    - the caller's row is gone: reading its balance throws and the
      transaction stays pending. *)
Theorem C6_failed_debit_leaves_pending env input s product user users' :
  sequence_ahead s →
  service_products s !! tu_product_id input = Some product →
  product_is_active product = true →
  users s !! tu_user_id input = Some user →
  product_price product ≤ user_wallet_balance user →
  tu_payment_method input = wallet →
  isApiSuccess env = true →
  int4 (tu_product_id input) →
  int4 (tu_user_id input) →
  int4 (transactions_id_seq s + 1) →
  numeric_10_2 (product_price product) →
  let '(s1, rest) := advance_checked 3 (processTopUp env input) s in
  let at_debit := with_users s1 users' in
  let i := transactions_id_seq s + 1 in
  match users' !! tu_user_id input with
  | Some current =>
      let c := user_wallet_balance current in
      if decide (numeric_10_2 (c - product_price product)) then
        ∃ s' t,
          run_checked rest at_debit = (s', inr t) ∧
          tx_id t = i ∧
          tx_status t = completed ∧
          transactions s' !! i = Some t ∧
          balance_of s' (tu_user_id input) = Some (c - product_price product)
      else
        ∃ t,
          run_checked rest at_debit = (at_debit, inl NumericFieldOverflow) ∧
          transactions at_debit !! i = Some t ∧
          tx_status t = pending
  | None =>
      ∃ t,
        run_checked rest at_debit = (at_debit, inl TypeError) ∧
        transactions at_debit !! i = Some t ∧
        tx_status t = pending
  end.
Proof.
  intros Hseq Hp Ha Hu Hb Hw Hok Hpid Huid Hnext Hprice.
  unfold advance_checked, processTopUp. cbn [step_checked].
  rewrite exec_checked_select_active by done.
  rewrite (exec_select_active_some _ _ _ Hp Ha), Hw, Hok.
  cbn [step_checked]. rewrite exec_checked_select_user by done.
  rewrite (exec_select_user _ _ _ Hu).
  rewrite decide_False by lia.
  cbn [step_checked]. rewrite exec_checked_insert by done.
  rewrite exec_insert_fresh by done.
  cbn zeta.
  rewrite run_checked_await, exec_checked_select_user by done.
  cbn [exec users with_users].
  destruct (users' !! tu_user_id input) as [current|] eqn:Hcurrent; cbn [found].
  - rewrite run_checked_await. case_decide as Hfits.
    + rewrite exec_checked_update_balance by done. cbn [exec].
      rewrite run_checked_await, exec_checked_update_transaction by done.
      erewrite exec_update_transaction by apply lookup_insert_eq.
      eexists _, _. split; [reflexivity|].
      do 2 (split; [reflexivity|]).
      split; [apply lookup_insert_eq|].
      unfold balance_of. cbn. by rewrite lookup_alter_eq, Hcurrent.
    + cbn [exec_checked]. rewrite decide_True, decide_False by done.
      eexists. split; [reflexivity|].
      split; [apply lookup_insert_eq | reflexivity].
  - eexists. split; [reflexivity|].
    split; [apply lookup_insert_eq | reflexivity].
Qed.

Lemma C6_witness :
  let '(s1, rest) :=
    advance_checked 3 (processTopUp env_success (sample_topup 1 1 wallet)) sample_store in
  let at_debit := with_users s1 (<[1 := set_user_balance 300000 0 sample_user]> ∅) in
  let i := transactions_id_seq sample_store + 1 in
  match (<[1 := set_user_balance 300000 0 sample_user]> ∅ : gmap Z UserRow)
          !! tu_user_id (sample_topup 1 1 wallet) with
  | Some current =>
      let c := user_wallet_balance current in
      if decide (numeric_10_2 (c - product_price sample_product)) then
        ∃ s' t,
          run_checked rest at_debit = (s', inr t) ∧
          tx_id t = i ∧
          tx_status t = completed ∧
          transactions s' !! i = Some t ∧
          balance_of s' (tu_user_id (sample_topup 1 1 wallet))
            = Some (c - product_price sample_product)
      else
        ∃ t,
          run_checked rest at_debit = (at_debit, inl NumericFieldOverflow) ∧
          transactions at_debit !! i = Some t ∧
          tx_status t = pending
  | None =>
      ∃ t,
        run_checked rest at_debit = (at_debit, inl TypeError) ∧
        transactions at_debit !! i = Some t ∧
        tx_status t = pending
  end.
Proof.
  apply (C6_failed_debit_leaves_pending env_success (sample_topup 1 1 wallet) sample_store
           sample_product sample_user (<[1 := set_user_balance 300000 0 sample_user]> ∅));
    first [ reflexivity | by_evaluation | by vm_compute ].
Defined.

(** C7: the [walletDeposit] procedure rejects every amount <= 0 with a
    validation error on [amount], for every user id, existing or not, and
    leaves the database as it was: no transaction row, no balance change. *)
Theorem C7_nonpositive_deposit_rejected env input s :
  wd_amount input ≤ 0 →
  ∃ paths,
    "amount" ∈ paths ∧
    run (appRouter.walletDeposit env input) s = (s, inl (ZodError paths)).
Proof.
  intros Hle. unfold appRouter.walletDeposit, procedure, walletDepositInputSchema.
  rewrite bool_decide_eq_false_2 by lia. cbn.
  eexists. split; [|reflexivity]. apply list_elem_of_here.
Qed.

Lemma C7_witness :
  ∃ paths,
    "amount" ∈ paths ∧
    run (appRouter.walletDeposit env_success (mkWalletDepositInput 1 0 payment_gateway))
        sample_store
      = (sample_store, inl (ZodError paths)).
Proof.
  apply (C7_nonpositive_deposit_rejected env_success
           (mkWalletDepositInput 1 0 payment_gateway) sample_store).
  by vm_compute.
Defined.

(** The check of C7 lives in the schema only: the handler called without
    the procedure takes a negative amount and debits the wallet. *)
Example walletDeposit_handler_trusts_its_input :
  ∃ s' t,
    run (walletDeposit env_success (mkWalletDepositInput 2 (-600000) payment_gateway))
        sample_store = (s', inr t) ∧
    tx_status t = completed ∧ balance_of s' 2 = Some (-100000).
Proof. vm_compute. eexists _, _. repeat split. Qed.




(** C9, as the spec states it, fails.  Two transactions of one user were
    created at the same time, and the query orders by the creation time
    only.  The call with limit 1 and offset 0 may return the first of them,
    and the call with limit 1 and offset 1 may return it again: the second
    call does not restart where the first one ended. *)
Lemma C9_counterexample :
  let first_page := mkGetUserTransactionsInput 1 (Some 1) (Some 0) in
  let second_page := mkGetUserTransactionsInput 1 (Some 1) (Some (0 + 1)) in
  tx_created_at (sample_row 1 1 5000 10) = tx_created_at (sample_row 2 1 2500 10) ∧
  may_run (getUserTransactions first_page) tie_ledger
    (tie_ledger, inr [sample_row 1 1 5000 10]) ∧
  may_run (getUserTransactions second_page) tie_ledger
    (tie_ledger, inr [sample_row 1 1 5000 10]).
Proof.
  cbv zeta. split; [reflexivity|].
  assert (∀ l, l ≡ₚ [sample_row 1 1 5000 10; sample_row 2 1 2500 10] →
               newest_first tie_ledger 1 l) as Hany.
  { intros l Hl. split.
    - rewrite Hl. vm_compute. first [ reflexivity | apply perm_swap ].
    - assert (Forall (λ t, tx_created_at t = 10) l) as Hat.
      { rewrite Hl. by repeat constructor. }
      clear Hl. induction Hat as [|t l Ht Hat IH]; constructor; [done|].
      eapply Forall_impl; [exact Hat|].
      intros t' Ht'. unfold newer_or_same. by rewrite Ht, Ht'. }
  split.
  - apply getUserTransactions_may_run; [by_evaluation..|].
    exists [sample_row 1 1 5000 10; sample_row 2 1 2500 10]. split; [by apply Hany|reflexivity].
  - apply getUserTransactions_may_run; [by_evaluation..|].
    exists [sample_row 2 1 2500 10; sample_row 1 1 5000 10].
    split; [apply Hany, perm_swap | reflexivity].
Qed.

(** C9, amended: for a user id, a limit and an offset the engine takes,
    [getUserTransactions] returns, and what it returns holds only
    transactions of that user, newest first, at most [limit] of them: the
    entries of a newest-first order of the user's stored transactions after
    the first [offset].  When the creation times of the user's transactions
    are pairwise different there is one such order, and the call with the
    offset moved by [limit] continues where the page ended. *)
Theorem C9_listing_is_a_page_of_the_history s u limit offset next_limit :
  int4 u →
  0 < limit → 0 ≤ offset → 0 < next_limit →
  offset + limit + next_limit ≤ 9223372036854775807 →
  let this_call := getUserTransactions (mkGetUserTransactionsInput u (Some limit) (Some offset)) in
  let next_call :=
    getUserTransactions
      (mkGetUserTransactionsInput u (Some next_limit) (Some (offset + limit))) in
  (∃ page, may_run this_call s (s, inr page)) ∧
  ∀ r, may_run this_call s r →
    ∃ page,
      r = (s, inr page) ∧
      Forall (λ t, tx_user_id t = u) page ∧
      StronglySorted newer_or_same page ∧
      (length page ≤ Z.to_nat limit)%nat ∧
      (∃ l, newest_first s u l ∧
            page = take (Z.to_nat limit) (drop (Z.to_nat offset) l)) ∧
      ∀ r', may_run next_call s r' →
        ∃ next,
          r' = (s, inr next) ∧
          (distinct_creation_times s u →
           page = take (Z.to_nat limit) (drop (Z.to_nat offset) (history s u)) ∧
           page ++ next
             = take (Z.to_nat limit + Z.to_nat next_limit)
                 (drop (Z.to_nat offset) (history s u))).
Proof.
  intros Hu Hl Ho Hn Hmax this_call next_call. split.
  - eexists. apply getUserTransactions_may_run; [done|cbn; lia..|].
    exists (history s u). split; [apply history_newest_first | reflexivity].
  - intros r Hr.
    apply getUserTransactions_may_run in Hr as (l & Hnewest & ->); [|done|cbn; lia..].
    cbn [default from_option gt_limit gt_offset gt_user_id]. unfold id.
    eexists. split; [reflexivity|].
    pose proof Hnewest as [Hperm Hsorted].
    split.
    { apply Forall_take, Forall_drop. rewrite Hperm. apply Forall_forall.
      intros t Ht. by apply list_elem_of_filter in Ht as [? _]. }
    split; [by apply page_sorted|].
    split; [rewrite length_take; lia|].
    split; [by exists l|].
    intros r' Hr'.
    apply getUserTransactions_may_run in Hr' as (l' & Hnewest' & ->); [|done|cbn; lia..].
    cbn [default from_option gt_limit gt_offset gt_user_id]. unfold id.
    eexists. split; [reflexivity|].
    intros Hdistinct.
    rewrite (newest_first_unique s u l Hdistinct Hnewest).
    rewrite (newest_first_unique s u l' Hdistinct Hnewest').
    split; [reflexivity|].
    rewrite Z2Nat.inj_add by lia. apply page_restart.
Qed.

Lemma C9_witness :
  let this_call := getUserTransactions (mkGetUserTransactionsInput 1 (Some 2) (Some 0)) in
  let next_call :=
    getUserTransactions (mkGetUserTransactionsInput 1 (Some 2) (Some (0 + 2))) in
  (∃ page, may_run this_call sample_ledger (sample_ledger, inr page)) ∧
  ∀ r, may_run this_call sample_ledger r →
    ∃ page,
      r = (sample_ledger, inr page) ∧
      Forall (λ t, tx_user_id t = 1) page ∧
      StronglySorted newer_or_same page ∧
      (length page ≤ Z.to_nat 2)%nat ∧
      (∃ l, newest_first sample_ledger 1 l ∧
            page = take (Z.to_nat 2) (drop (Z.to_nat 0) l)) ∧
      ∀ r', may_run next_call sample_ledger r' →
        ∃ next,
          r' = (sample_ledger, inr next) ∧
          (distinct_creation_times sample_ledger 1 →
           page = take (Z.to_nat 2) (drop (Z.to_nat 0) (history sample_ledger 1)) ∧
           page ++ next
             = take (Z.to_nat 2 + Z.to_nat 2)
                 (drop (Z.to_nat 0) (history sample_ledger 1))).
Proof.
  apply (C9_listing_is_a_page_of_the_history sample_ledger 1 2 0 2);
    first [ by_evaluation | lia ].
Defined.

(** The sample ledger has no two transactions of user 1 created at the same
    time; the ledger of the ties has. *)
Example sample_ledger_distinct :
  distinct_creation_times sample_ledger 1 ∧ ¬ distinct_creation_times tie_ledger 1.
Proof. split; by_evaluation. Qed.

(** The pages of the sample ledger: newest first, two at a time. *)
Example sample_pages :
  run (getUserTransactions (mkGetUserTransactionsInput 1 (Some 2) (Some 0))) sample_ledger
    = (sample_ledger, inr [sample_row 3 1 2500 30; sample_row 4 1 1000 20]) ∧
  run (getUserTransactions (mkGetUserTransactionsInput 1 (Some 2) (Some 2))) sample_ledger
    = (sample_ledger, inr [sample_row 1 1 5000 10]).
Proof. split; vm_compute; reflexivity. Qed.



(** Twelve rows stored, no [limit], no [offset]: the ten newest come back,
    the rows created at times 1 and 2 do not. *)
Example default_page_of_long_ledger :
  length (history long_ledger 1) = 12%nat ∧
  run (getUserTransactions (mkGetUserTransactionsInput 1 None None)) long_ledger
    = (long_ledger,
       inr ((λ i, sample_row i 1 (1000 * i) i) <$> [12; 11; 10; 9; 8; 7; 6; 5; 4; 3])).
Proof. split; vm_compute; reflexivity. Qed.

(** * Further properties of the handlers *)

(** ** Rejections of [processTopUp] and [walletDeposit] *)

Lemma processTopUp_user_rejected env input s product :
  service_products s !! tu_product_id input = Some product →
  product_is_active product = true →
  users s !! tu_user_id input = None →
  run (processTopUp env input) s = (s, inl UserNotFound).
Proof.
  intros Hp Ha Hu. unfold processTopUp.
  rewrite run_await, (exec_select_active_some _ _ _ Hp Ha).
  destruct (tu_payment_method input);
    rewrite run_await; cbn [exec]; rewrite Hu; reflexivity.
Qed.

Lemma walletDeposit_user_rejected env input s :
  users s !! wd_user_id input = None →
  run (walletDeposit env input) s = (s, inl (UserWithIdNotFound (wd_user_id input))).
Proof.
  intros Hu. unfold walletDeposit. rewrite run_await. cbn [exec]. by rewrite Hu.
Qed.

(** X1: an active product, found under an id of the [integer] range, but
    no user row with the given id: for a user id of that range
    [processTopUp] throws 'User not found', for one outside of it the lookup
    throws the range error of the database; for wallet and gateway payment
    alike, after the product lookup and before any write. *)
Theorem X1_topup_unknown_user_rejected env input s product :
  service_products s !! tu_product_id input = Some product →
  product_is_active product = true →
  int4 (tu_product_id input) →
  users s !! tu_user_id input = None →
  run_checked (processTopUp env input) s
    = (s, inl (if decide (int4 (tu_user_id input)) then UserNotFound
               else IntegerOutOfRange)).
Proof.
  intros Hp Ha Hpid Hu. unfold processTopUp.
  rewrite run_checked_await, exec_checked_select_active by done.
  rewrite (exec_select_active_some _ _ _ Hp Ha).
  destruct (tu_payment_method input); rewrite run_checked_await; cbn [exec_checked];
    case_decide; cbn [exec]; rewrite ?Hu; reflexivity.
Qed.

Lemma X1_witness :
  run_checked (processTopUp env_success (sample_topup 99999 1 wallet)) sample_store
    = (sample_store, inl UserNotFound) ∧
  run_checked (processTopUp env_success (sample_topup 99999 1 payment_gateway)) sample_store
    = (sample_store, inl UserNotFound) ∧
  run_checked (processTopUp env_success (sample_topup 2147483648 1 wallet)) sample_store
    = (sample_store, inl IntegerOutOfRange).
Proof.
  split; [|split].
  - apply (X1_topup_unknown_user_rejected env_success (sample_topup 99999 1 wallet)
             sample_store sample_product); first [ reflexivity | by_evaluation ].
  - apply (X1_topup_unknown_user_rejected env_success (sample_topup 99999 1 payment_gateway)
             sample_store sample_product); first [ reflexivity | by_evaluation ].
  - apply (X1_topup_unknown_user_rejected env_success (sample_topup 2147483648 1 wallet)
             sample_store sample_product); first [ reflexivity | by_evaluation ].
Defined.

(** X2: no user row with the given id: for an id of the [integer] range
    [walletDeposit] throws 'User with id <id> not found', naming the id
    asked for; for an id outside of it the lookup throws the range error of
    the database.  Nothing is written. *)
Theorem X2_deposit_unknown_user_rejected env input s :
  users s !! wd_user_id input = None →
  run_checked (walletDeposit env input) s
    = (s, inl (if decide (int4 (wd_user_id input)) then UserWithIdNotFound (wd_user_id input)
               else IntegerOutOfRange)).
Proof.
  intros Hu. unfold walletDeposit. rewrite run_checked_await. cbn [exec_checked].
  case_decide; cbn [exec]; rewrite ?Hu; reflexivity.
Qed.

Lemma X2_witness :
  run_checked (walletDeposit env_success (mkWalletDepositInput 99999 5000 payment_gateway))
      sample_store
    = (sample_store, inl (UserWithIdNotFound 99999)) ∧
  run_checked (walletDeposit env_success (mkWalletDepositInput (-2147483649) 5000 payment_gateway))
      sample_store
    = (sample_store, inl IntegerOutOfRange).
Proof.
  split.
  - apply (X2_deposit_unknown_user_rejected env_success
             (mkWalletDepositInput 99999 5000 payment_gateway) sample_store).
    reflexivity.
  - apply (X2_deposit_unknown_user_rejected env_success
             (mkWalletDepositInput (-2147483649) 5000 payment_gateway) sample_store).
    reflexivity.
Defined.

(** ** Every outcome of a call *)

Lemma topup_ledger_final env input price s :
  topup_ledger env input price s =
    <[transactions_id_seq s + 1 := final_topup env input price s]> (transactions s).
Proof. unfold topup_ledger. apply insert_insert_eq. Qed.

(** The runs of [processTopUp] on a well-formed database: one of the three
    rejections, with nothing written, or one new row. *)
Lemma processTopUp_cases env input s :
  sequence_ahead s →
  (∃ e, (e = ProductNotFoundOrInactive ∨ e = UserNotFound ∨ e = InsufficientWalletBalance) ∧
        run (processTopUp env input) s = (s, inl e)) ∨
  (∃ product user,
     service_products s !! tu_product_id input = Some product ∧
     product_is_active product = true ∧
     users s !! tu_user_id input = Some user ∧
     (tu_payment_method input = wallet → product_price product ≤ user_wallet_balance user) ∧
     run (processTopUp env input) s =
       ({| users :=
             if decide (tu_payment_method input = wallet ∧ isApiSuccess env = true)
             then alter (set_user_balance (user_wallet_balance user - product_price product)
                           (clock env 3)) (tu_user_id input) (users s)
             else users s;
           service_products := service_products s;
           transactions :=
             <[transactions_id_seq s + 1 := final_topup env input (product_price product) s]>
               (transactions s);
           transactions_id_seq := transactions_id_seq s + 1 |},
        inr (final_topup env input (product_price product) s))).
Proof.
  intros Hseq.
  destruct (service_products s !! tu_product_id input) as [product|] eqn:Hp.
  2: { left. eexists. split; [by left|]. apply processTopUp_product_rejected. by left. }
  destruct (product_is_active product) eqn:Ha.
  2: { left. eexists. split; [by left|]. apply processTopUp_product_rejected.
       right. by exists product. }
  destruct (users s !! tu_user_id input) as [user|] eqn:Hu.
  2: { left. eexists. split; [right; by left|]. by eapply processTopUp_user_rejected. }
  destruct (decide (tu_payment_method input = wallet)) as [Hw|Hg].
  - destruct (decide (user_wallet_balance user < product_price product)) as [Hlt|Hge].
    { left. eexists. split; [right; by right|]. by eapply processTopUp_balance_rejected. }
    right. exists product, user. repeat (split; [done || (intros; lia)|]).
    rewrite <- topup_ledger_final.
    destruct (isApiSuccess env) eqn:Hok.
    + rewrite decide_True by done.
      eapply processTopUp_wallet_debited; eauto. lia.
    + rewrite decide_False by (intros [_ ?]; done).
      eapply processTopUp_not_debited; eauto. intros _. split; [lia|done].
  - right. exists product, user. repeat (split; [done|]).
    rewrite <- topup_ledger_final.
    rewrite decide_False by (intros [? _]; done).
    eapply processTopUp_not_debited; eauto. done.
Qed.

Lemma walletDeposit_cases env input s :
  sequence_ahead s →
  (users s !! wd_user_id input = None ∧
   run (walletDeposit env input) s = (s, inl (UserWithIdNotFound (wd_user_id input)))) ∨
  (∃ user,
     users s !! wd_user_id input = Some user ∧
     run (walletDeposit env input) s =
       ({| users :=
             alter (set_user_balance (user_wallet_balance user + wd_amount input)
                      (clock env 2)) (wd_user_id input) (users s);
           service_products := service_products s;
           transactions :=
             <[transactions_id_seq s + 1 := final_deposit env input s]> (transactions s);
           transactions_id_seq := transactions_id_seq s + 1 |},
        inr (final_deposit env input s))).
Proof.
  intros Hseq.
  destruct (users s !! wd_user_id input) as [user|] eqn:Hu.
  - right. exists user. split; [done|].
    rewrite <- (insert_insert_eq (transactions s) _ _ (pending_deposit env input s)).
    by apply walletDeposit_credited.
  - left. split; [done|]. by apply walletDeposit_user_rejected.
Qed.

(** ** The same on the engine *)

Lemma exec_checked_cases {B} (op : DbOp B) s :
  exec_checked op s = exec op s ∨ ∃ e, engine_error e ∧ exec_checked op s = (s, inl e).
Proof.
  unfold engine_error.
  destruct op; cbn [exec_checked]; repeat case_decide; eauto 10.
Qed.

Lemma run_checked_sequence_ahead {A} (p : Prog A) s :
  sequence_ahead s → sequence_ahead (run_checked p s).1.
Proof.
  revert s. induction p as [a | e | B op k IH]; intros s Hseq; cbn [run_checked]; try done.
  pose proof (exec_sequence_ahead op s Hseq) as Hexec.
  destruct (exec_checked_cases op s) as [-> | (e & _ & ->)]; [|done].
  destruct (exec op s) as [s' [e | b]]; [done|]. by apply IH.
Qed.

(** The runs of [walletDeposit] on the engine: as [run] has them; or refused
    by the engine with nothing written; or refused at the balance update,
    with the pending row written. *)
Lemma walletDeposit_checked_cases env input s :
  sequence_ahead s →
  run_checked (walletDeposit env input) s = run (walletDeposit env input) s ∨
  (∃ e, engine_error e ∧ run_checked (walletDeposit env input) s = (s, inl e)) ∨
  (∃ user,
     users s !! wd_user_id input = Some user ∧
     ¬ numeric_10_2 (user_wallet_balance user + wd_amount input) ∧
     run_checked (walletDeposit env input) s =
       (with_transactions s
          (<[transactions_id_seq s + 1 := pending_deposit env input s]> (transactions s))
          (transactions_id_seq s + 1),
        inl NumericFieldOverflow)).
Proof.
  intros Hseq. unfold engine_error.
  destruct (decide (int4 (wd_user_id input))) as [Hid|Hid].
  2: { right; left. eexists. split; [by left|].
       unfold walletDeposit. rewrite run_checked_await. cbn [exec_checked].
       by rewrite decide_False. }
  destruct (users s !! wd_user_id input) as [user|] eqn:Hu.
  2: { left. unfold walletDeposit.
       rewrite run_checked_await, run_await, exec_checked_select_user by done.
       cbn [exec]. by rewrite Hu. }
  destruct (decide (numeric_10_2 (wd_amount input))) as [Ha|Ha].
  2: { right; left. eexists. split; [right; right; by left|].
       unfold walletDeposit.
       rewrite run_checked_await, exec_checked_select_user, (exec_select_user _ _ _ Hu) by done.
       rewrite run_checked_await. cbn [exec_checked new_user_id new_product_id new_amount].
       rewrite decide_True by done. by rewrite decide_False. }
  destruct (decide (int4 (transactions_id_seq s + 1))) as [Hnext|Hnext].
  2: { right; left. eexists. split; [right; right; by right|].
       unfold walletDeposit.
       rewrite run_checked_await, exec_checked_select_user, (exec_select_user _ _ _ Hu) by done.
       rewrite run_checked_await. cbn [exec_checked new_user_id new_product_id new_amount].
       rewrite !decide_True by done. by rewrite decide_False. }
  destruct (decide (numeric_10_2 (user_wallet_balance user + wd_amount input))) as [Hb|Hb].
  { left. by eapply walletDeposit_checked_agrees. }
  right; right. exists user. split; [done|]. split; [done|].
  unfold walletDeposit.
  rewrite run_checked_await, exec_checked_select_user, (exec_select_user _ _ _ Hu) by done.
  rewrite run_checked_await, exec_checked_insert, exec_insert_fresh by done.
  rewrite run_checked_await. cbn [exec_checked].
  rewrite decide_True by done. by rewrite decide_False.
Qed.

(** The runs of [processTopUp] on the engine, likewise; the balance update
    is the debit of step 5. *)
Lemma processTopUp_checked_cases env input s :
  sequence_ahead s →
  run_checked (processTopUp env input) s = run (processTopUp env input) s ∨
  (∃ e, engine_error e ∧ run_checked (processTopUp env input) s = (s, inl e)) ∨
  (∃ product user,
     service_products s !! tu_product_id input = Some product ∧
     users s !! tu_user_id input = Some user ∧
     tu_payment_method input = wallet ∧
     isApiSuccess env = true ∧
     ¬ numeric_10_2 (user_wallet_balance user - product_price product) ∧
     run_checked (processTopUp env input) s =
       (with_transactions s
          (<[transactions_id_seq s + 1 := pending_topup env input (product_price product) s]>
             (transactions s))
          (transactions_id_seq s + 1),
        inl NumericFieldOverflow)).
Proof.
  intros Hseq. unfold engine_error.
  destruct (decide (int4 (tu_product_id input))) as [Hpid|Hpid].
  2: { right; left. eexists. split; [by left|].
       unfold processTopUp. rewrite run_checked_await. cbn [exec_checked].
       by rewrite decide_False. }
  assert (run_checked (processTopUp env input) s = run (processTopUp env input) s ∨
          ∃ product, service_products s !! tu_product_id input = Some product ∧
                     product_is_active product = true) as [Hsame | (product & Hp & Hactive)].
  { destruct (service_products s !! tu_product_id input) as [product|] eqn:Hp.
    - destruct (product_is_active product) eqn:Hactive; [right; by exists product|].
      left. unfold processTopUp.
      rewrite run_checked_await, run_await, exec_checked_select_active by done.
      rewrite exec_select_active_none; [done|]. right. by exists product.
    - left. unfold processTopUp.
      rewrite run_checked_await, run_await, exec_checked_select_active by done.
      rewrite exec_select_active_none; [done|]. by left. }
  { by left. }
  destruct (decide (int4 (tu_user_id input))) as [Huid|Huid].
  2: { right; left. eexists. split; [by left|].
       unfold processTopUp.
       rewrite run_checked_await, exec_checked_select_active by done.
       rewrite (exec_select_active_some _ _ _ Hp Hactive).
       destruct (tu_payment_method input); rewrite run_checked_await; cbn [exec_checked];
         by rewrite decide_False. }
  destruct (users s !! tu_user_id input) as [user|] eqn:Hu.
  2: { left. unfold processTopUp.
       rewrite run_checked_await, run_await, exec_checked_select_active by done.
       rewrite (exec_select_active_some _ _ _ Hp Hactive).
       destruct (tu_payment_method input);
         rewrite run_checked_await, run_await, exec_checked_select_user by done;
         cbn [exec]; by rewrite Hu. }
  destruct (decide (tu_payment_method input = wallet ∧
                    user_wallet_balance user < product_price product)) as [[Hw Hlow]|Hfunds].
  { left. unfold processTopUp.
    rewrite run_checked_await, run_await, exec_checked_select_active by done.
    rewrite (exec_select_active_some _ _ _ Hp Hactive), Hw.
    rewrite run_checked_await, run_await, exec_checked_select_user by done.
    rewrite (exec_select_user _ _ _ Hu). by rewrite decide_True. }
  assert (tu_payment_method input = wallet →
          product_price product ≤ user_wallet_balance user) as Hcovered.
  { intros Hw. destruct (decide (user_wallet_balance user < product_price product)); [|lia].
    destruct Hfunds. by split. }
  assert (∀ e, exec_checked
                 (InsertTransaction
                    {| new_user_id := tu_user_id input;
                       new_transaction_type := topup;
                       new_amount := product_price product;
                       new_status := pending;
                       new_payment_method := tu_payment_method input;
                       new_reference_id :=
                         match tu_payment_method input with
                         | payment_gateway => Some ("PAY_" +:+ pretty (clock env 0))
                         | wallet => None
                         end;
                       new_product_id := Some (tu_product_id input);
                       new_target_number := Some (tu_target_number input);
                       new_digiflazz_reference := None |} (clock env 1)) s = (s, inl e) →
               run_checked (processTopUp env input) s = (s, inl e)) as Hinsert.
  { intros e He. unfold processTopUp.
    rewrite run_checked_await, exec_checked_select_active by done.
    rewrite (exec_select_active_some _ _ _ Hp Hactive).
    destruct (tu_payment_method input) eqn:Hm;
      rewrite run_checked_await, exec_checked_select_user, (exec_select_user _ _ _ Hu) by done.
    - rewrite decide_False by (specialize (Hcovered eq_refl); lia).
      rewrite run_checked_await. by rewrite He.
    - rewrite run_checked_await. by rewrite He. }
  destruct (decide (numeric_10_2 (product_price product))) as [Hprice|Hprice].
  2: { right; left. eexists. split; [right; right; by left|].
       apply Hinsert. cbn [exec_checked new_user_id new_product_id new_amount].
       rewrite decide_True by done. by rewrite decide_False. }
  destruct (decide (int4 (transactions_id_seq s + 1))) as [Hnext|Hnext].
  2: { right; left. eexists. split; [right; right; by right|].
       apply Hinsert. cbn [exec_checked new_user_id new_product_id new_amount].
       rewrite !decide_True by done. by rewrite decide_False. }
  clear Hinsert.
  destruct (decide (tu_payment_method input = wallet ∧ isApiSuccess env = true ∧
                    ¬ numeric_10_2 (user_wallet_balance user - product_price product)))
    as [(Hw & Hok & Hdebit)|Hfits].
  - right; right. exists product, user. do 5 (split; [done|]).
    unfold processTopUp.
    rewrite run_checked_await, exec_checked_select_active by done.
    rewrite (exec_select_active_some _ _ _ Hp Hactive), Hw, Hok.
    rewrite run_checked_await, exec_checked_select_user, (exec_select_user _ _ _ Hu) by done.
    rewrite decide_False by (specialize (Hcovered Hw); lia).
    rewrite run_checked_await, exec_checked_insert, exec_insert_fresh by done.
    rewrite run_checked_await, exec_checked_select_user by done.
    rewrite (exec_select_user _ _ user) by done.
    rewrite run_checked_await. cbn [exec_checked].
    rewrite decide_True by done. rewrite decide_False by done.
    unfold pending_topup. by rewrite Hw.
  - left. eapply processTopUp_checked_agrees; try done.
    intros Hw. split; [by apply Hcovered|].
    intros Hok. destruct (decide (numeric_10_2 (user_wallet_balance user - product_price product)));
      [done|]. destruct Hfits. by repeat split.
Qed.



(** X4: on a well-formed database, with integer ids and stored amounts
    of whole hundredths, a [processTopUp] call has three kinds of outcome
    only.  It throws 'Product not found or inactive', 'User not found',
    'Insufficient wallet balance' or an error of the engine for a value
    outside its column, and leaves users, ledger and catalog as they were.
    Or, paying by wallet with a successful gateway, it throws numeric field
    overflow at the debit and leaves its row pending under the next id, the
    users untouched.  Or it returns a row that it stored under the next id
    of the sequence, for the calling user, in its final status (completed if
    the gateway succeeded, failed otherwise), with the rest of the ledger
    and the catalog as they were. *)
Theorem X4_topup_outcomes env input s :
  sequence_ahead s →
  (∃ s' e,
     run_checked (processTopUp env input) s = (s', inl e) ∧
     (e = ProductNotFoundOrInactive ∨ e = UserNotFound ∨ e = InsufficientWalletBalance ∨
      engine_error e) ∧
     users s' = users s ∧ transactions s' = transactions s ∧
     service_products s' = service_products s) ∨
  (∃ s' t,
     run_checked (processTopUp env input) s = (s', inl NumericFieldOverflow) ∧
     tu_payment_method input = wallet ∧ isApiSuccess env = true ∧
     tx_id t = transactions_id_seq s + 1 ∧
     tx_user_id t = tu_user_id input ∧
     tx_status t = pending ∧
     transactions s' = <[tx_id t := t]> (transactions s) ∧
     transactions s !! tx_id t = None ∧
     users s' = users s ∧
     service_products s' = service_products s) ∨
  (∃ s' t,
     run_checked (processTopUp env input) s = (s', inr t) ∧
     tx_id t = transactions_id_seq s + 1 ∧
     tx_user_id t = tu_user_id input ∧
     tx_transaction_type t = topup ∧
     tx_status t = (if isApiSuccess env then completed else failed) ∧
     transactions s' = <[tx_id t := t]> (transactions s) ∧
     transactions s !! tx_id t = None ∧
     transactions_id_seq s' = tx_id t ∧
     service_products s' = service_products s).
Proof.
  intros Hseq.
  destruct (processTopUp_checked_cases env input s Hseq)
    as [-> | [(e & He & ->) | (product & user & _ & _ & Hw & Hok & _ & ->)]].
  - destruct (processTopUp_cases env input s Hseq)
      as [(e & He & ->) | (product & user & _ & _ & _ & _ & ->)].
    + left. eexists _, _. split; [reflexivity|]. split; [|done].
      destruct He as [-> | [-> | ->]]; auto.
    + right; right. eexists _, _. split; [reflexivity|].
      cbn. repeat split. by apply next_id_free.
  - left. eexists _, _. split; [reflexivity|]. split; [|done]. auto.
  - right; left. eexists _, (pending_topup env input (product_price product) s).
    split; [reflexivity|].
    do 2 (split; [done|]).
    cbn. repeat split. by apply next_id_free.
Qed.

Lemma X4_witness :
  (∃ s' e,
     run_checked (processTopUp env_failure (sample_topup 1 1 wallet)) sample_store
       = (s', inl e) ∧
     (e = ProductNotFoundOrInactive ∨ e = UserNotFound ∨ e = InsufficientWalletBalance ∨
      engine_error e) ∧
     users s' = users sample_store ∧ transactions s' = transactions sample_store ∧
     service_products s' = service_products sample_store) ∨
  (∃ s' t,
     run_checked (processTopUp env_failure (sample_topup 1 1 wallet)) sample_store
       = (s', inl NumericFieldOverflow) ∧
     tu_payment_method (sample_topup 1 1 wallet) = wallet ∧
     isApiSuccess env_failure = true ∧
     tx_id t = transactions_id_seq sample_store + 1 ∧
     tx_user_id t = tu_user_id (sample_topup 1 1 wallet) ∧
     tx_status t = pending ∧
     transactions s' = <[tx_id t := t]> (transactions sample_store) ∧
     transactions sample_store !! tx_id t = None ∧
     users s' = users sample_store ∧
     service_products s' = service_products sample_store) ∨
  (∃ s' t,
     run_checked (processTopUp env_failure (sample_topup 1 1 wallet)) sample_store
       = (s', inr t) ∧
     tx_id t = transactions_id_seq sample_store + 1 ∧
     tx_user_id t = tu_user_id (sample_topup 1 1 wallet) ∧
     tx_transaction_type t = topup ∧
     tx_status t = (if isApiSuccess env_failure then completed else failed) ∧
     transactions s' = <[tx_id t := t]> (transactions sample_store) ∧
     transactions sample_store !! tx_id t = None ∧
     transactions_id_seq s' = tx_id t ∧
     service_products s' = service_products sample_store).
Proof.
  apply (X4_topup_outcomes env_failure (sample_topup 1 1 wallet) sample_store).
  by_evaluation.
Defined.

(** X5: on a well-formed database, with an integer id and an amount of
    whole hundredths, [walletDeposit] has three kinds of outcome only.  It
    throws 'User with id <id> not found' or an error of the engine for a
    value outside its column, and leaves users, ledger and catalog as they
    were.  Or the sum of balance and amount does not fit [numeric(10,2)]:
    it throws numeric field overflow at the balance update and leaves its
    row pending under the next id, the balance not credited.  Or it stores
    one row of type wallet_deposit whose status is completed and credits the
    caller by the amount.  The simulated payment always succeeds, so the
    handler never returns a failed or pending deposit. *)
Theorem X5_deposit_outcomes env input s :
  sequence_ahead s →
  (∃ s' e,
     run_checked (walletDeposit env input) s = (s', inl e) ∧
     (e = UserWithIdNotFound (wd_user_id input) ∨ engine_error e) ∧
     users s' = users s ∧ transactions s' = transactions s ∧
     service_products s' = service_products s) ∨
  (∃ user s' t,
     users s !! wd_user_id input = Some user ∧
     ¬ numeric_10_2 (user_wallet_balance user + wd_amount input) ∧
     run_checked (walletDeposit env input) s = (s', inl NumericFieldOverflow) ∧
     tx_id t = transactions_id_seq s + 1 ∧
     tx_user_id t = wd_user_id input ∧
     tx_status t = pending ∧
     transactions s' = <[tx_id t := t]> (transactions s) ∧
     transactions s !! tx_id t = None ∧
     users s' = users s ∧
     service_products s' = service_products s) ∨
  (∃ user s' t,
     users s !! wd_user_id input = Some user ∧
     run_checked (walletDeposit env input) s = (s', inr t) ∧
     tx_id t = transactions_id_seq s + 1 ∧
     tx_user_id t = wd_user_id input ∧
     tx_transaction_type t = wallet_deposit ∧
     tx_status t = completed ∧
     tx_reference_id t = Some ("PAY_" +:+ pretty (clock env 0)) ∧
     transactions s' = <[tx_id t := t]> (transactions s) ∧
     transactions s !! tx_id t = None ∧
     balance_of s' (wd_user_id input) = Some (user_wallet_balance user + wd_amount input) ∧
     service_products s' = service_products s).
Proof.
  intros Hseq.
  destruct (walletDeposit_checked_cases env input s Hseq)
    as [-> | [(e & He & ->) | (user & Hu & Hb & ->)]].
  - destruct (walletDeposit_cases env input s Hseq) as [[_ ->] | (user & Hu & ->)].
    + left. eexists _, _. split; [reflexivity|]. split; [by left | done].
    + right; right. eexists user, _, _. split; [done|]. split; [reflexivity|].
      cbn. repeat split.
      * by apply next_id_free.
      * unfold balance_of. cbn. by erewrite balance_of_alter.
  - left. eexists _, _. split; [reflexivity|]. split; [by right | done].
  - right; left. eexists user, _, (pending_deposit env input s).
    do 2 (split; [done|]). split; [reflexivity|].
    cbn. repeat split. by apply next_id_free.
Qed.

Lemma X5_witness :
  (∃ s' e,
     run_checked (walletDeposit env_success (mkWalletDepositInput 2 5000 payment_gateway))
         sample_store = (s', inl e) ∧
     (e = UserWithIdNotFound 2 ∨ engine_error e) ∧
     users s' = users sample_store ∧ transactions s' = transactions sample_store ∧
     service_products s' = service_products sample_store) ∨
  (∃ user s' t,
     users sample_store !! 2 = Some user ∧
     ¬ numeric_10_2 (user_wallet_balance user + 5000) ∧
     run_checked (walletDeposit env_success (mkWalletDepositInput 2 5000 payment_gateway))
         sample_store = (s', inl NumericFieldOverflow) ∧
     tx_id t = transactions_id_seq sample_store + 1 ∧
     tx_user_id t = 2 ∧
     tx_status t = pending ∧
     transactions s' = <[tx_id t := t]> (transactions sample_store) ∧
     transactions sample_store !! tx_id t = None ∧
     users s' = users sample_store ∧
     service_products s' = service_products sample_store) ∨
  (∃ user s' t,
     users sample_store !! 2 = Some user ∧
     run_checked (walletDeposit env_success (mkWalletDepositInput 2 5000 payment_gateway))
         sample_store = (s', inr t) ∧
     tx_id t = transactions_id_seq sample_store + 1 ∧
     tx_user_id t = 2 ∧
     tx_transaction_type t = wallet_deposit ∧
     tx_status t = completed ∧
     tx_reference_id t = Some ("PAY_" +:+ pretty (clock env_success 0)) ∧
     transactions s' = <[tx_id t := t]> (transactions sample_store) ∧
     transactions sample_store !! tx_id t = None ∧
     balance_of s' 2 = Some (user_wallet_balance user + 5000) ∧
     service_products s' = service_products sample_store).
Proof.
  apply (X5_deposit_outcomes env_success (mkWalletDepositInput 2 5000 payment_gateway)
           sample_store).
  by_evaluation.
Defined.

(** ** What the handlers never touch *)

Lemma run_call_ledger env c s :
  sequence_ahead s →
  (∃ e, run_call env c s = (s, inl e)) ∨
  ∃ t,
    (run_call env c s).2 = inr t ∧
    tx_id t = transactions_id_seq s + 1 ∧
    transactions s !! (transactions_id_seq s + 1) = None ∧
    transactions (run_call env c s).1
      = <[transactions_id_seq s + 1 := t]> (transactions s).
Proof.
  intros Hseq. destruct c as [i | i]; cbn [run_call].
  - destruct (walletDeposit_cases env i s Hseq) as [[_ ->] | (user & _ & ->)]; [by eauto|].
    right. eexists. repeat split. by apply next_id_free.
  - destruct (processTopUp_cases env i s Hseq)
      as [(e & _ & ->) | (product & user & _ & _ & _ & _ & ->)]; [by eauto|].
    right. eexists. repeat split. by apply next_id_free.
Qed.

(** X6: the ledger is append-only for the two mutating handlers: on a
    well-formed database, a row that is stored before a [walletDeposit] or
    [processTopUp] call is stored unchanged after it, whatever the call
    does. *)
Theorem X6_stored_rows_are_never_rewritten env c s i t :
  sequence_ahead s →
  transactions s !! i = Some t →
  transactions (run_call env c s).1 !! i = Some t.
Proof.
  intros Hseq Ht.
  destruct (run_call_ledger env c s Hseq) as [[e ->] | (t' & _ & _ & Hfree & ->)]; [done|].
  rewrite lookup_insert_ne; [done|]. intros <-. congruence.
Qed.

Lemma X6_witness :
  transactions
    (run_call env_success (DepositCall (mkWalletDepositInput 1 5000 payment_gateway))
       sample_ledger).1 !! 3
  = Some (sample_row 3 1 2500 30).
Proof.
  apply (X6_stored_rows_are_never_rewritten env_success
           (DepositCall (mkWalletDepositInput 1 5000 payment_gateway)) sample_ledger 3).
  - by_evaluation.
  - by vm_compute.
Defined.

Lemma exec_keeps_users_and_catalog {B} (op : DbOp B) s :
  service_products (exec op s).1 = service_products s ∧
  ∀ i, user_identity <$> users (exec op s).1 !! i = user_identity <$> users s !! i.
Proof.
  destruct op; cbn [exec]; try done.
  - by destruct (transactions s !! (transactions_id_seq s + 1)).
  - split; [done|]. intros j. cbn. rewrite lookup_alter.
    destruct (decide (i = j)) as [<-|]; [|done].
    by destruct (users s !! i).
  - by case_decide.
Qed.

(** X7: no handler creates or deletes a user, rewrites a user's id, email,
    name, phone or creation time, or changes the catalog.  This holds for
    every program made of the handlers' statements, so for each of
    [processTopUp], [walletDeposit], [getUserById] and
    [getUserTransactions], on every database and whatever the outcome. *)
Theorem X7_users_and_catalog_are_kept {A} (p : Prog A) s :
  service_products (run p s).1 = service_products s ∧
  ∀ i, user_identity <$> users (run p s).1 !! i = user_identity <$> users s !! i.
Proof.
  revert s. induction p as [a | e | B op k IH]; intros s; cbn [run]; try done.
  destruct (exec_keeps_users_and_catalog op s) as [Hcat Husers].
  destruct (exec op s) as [s' [e | b]]; [done|].
  destruct (IH b s') as [Hcat' Husers']. cbn in *. split; [congruence|].
  intros i. by rewrite Husers', Husers.
Qed.

(** ** The ledger accounts for every balance *)

Lemma sum_permutation (l1 l2 : list Z) :
  l1 ≡ₚ l2 → foldr Z.add 0 l1 = foldr Z.add 0 l2.
Proof. induction 1; cbn; lia. Qed.

Lemma rows_insert {V} (m : gmap Z V) i v :
  m !! i = None → rows (<[i := v]> m) ≡ₚ v :: rows m.
Proof. intros Hi. unfold rows. by rewrite map_to_list_insert. Qed.

Lemma ledger_net_insert s s' u i t :
  transactions s !! i = None →
  transactions s' = <[i := t]> (transactions s) →
  ledger_net s' u = wallet_effect u t + ledger_net s u.
Proof.
  intros Hi Hs'. unfold ledger_net. rewrite Hs'.
  erewrite sum_permutation; [|by rewrite rows_insert]. reflexivity.
Qed.

Lemma wallet_effect_final_topup env input price s u :
  wallet_effect u (final_topup env input price s) =
    if decide (tu_user_id input = u ∧ tu_payment_method input = wallet ∧ isApiSuccess env = true)
    then - price else 0.
Proof.
  unfold wallet_effect, final_topup, pending_topup. cbn.
  destruct (decide (tu_user_id input = u)) as [Hu|Hu], (isApiSuccess env),
    (tu_payment_method input);
    repeat first [ rewrite decide_True by (repeat split; done)
                 | rewrite decide_False by (intros (? & ? & ?) || intros (? & ?); done) ];
    reflexivity.
Qed.

Lemma wallet_effect_final_deposit env input s u :
  wallet_effect u (final_deposit env input s) =
    if decide (wd_user_id input = u) then wd_amount input else 0.
Proof.
  unfold wallet_effect, final_deposit, pending_deposit. cbn.
  destruct (decide (wd_user_id input = u)) as [Hu|Hu].
  - by rewrite decide_True.
  - rewrite decide_False; [done|]. by intros [? _].
Qed.

Lemma balance_of_alter_other (m : gmap Z UserRow) i j c at' :
  i ≠ j →
  user_wallet_balance <$> alter (set_user_balance c at') i m !! j
    = user_wallet_balance <$> m !! j.
Proof. intros Hne. by rewrite lookup_alter_ne. Qed.

Lemma run_call_reconciles env c s u usr :
  sequence_ahead s →
  users s !! u = Some usr →
  balance_of (run_call env c s).1 u
    = Some (user_wallet_balance usr
            + (ledger_net (run_call env c s).1 u - ledger_net s u)).
Proof.
  intros Hseq Hu.
  assert (balance_of s u = Some (user_wallet_balance usr + (ledger_net s u - ledger_net s u)))
    as Hsame by (unfold balance_of; rewrite Hu; cbn; f_equal; lia).
  destruct c as [i | i]; cbn [run_call].
  - destruct (walletDeposit_cases env i s Hseq) as [[_ ->] | (user & Hi & ->)]; [done|].
    cbn [fst]. erewrite (ledger_net_insert s); [|by apply next_id_free|reflexivity].
    rewrite wallet_effect_final_deposit. unfold balance_of. cbn [users].
    case_decide as Hcase.
    + subst u. erewrite balance_of_alter by done. f_equal.
      assert (user = usr) as -> by congruence. lia.
    + rewrite balance_of_alter_other by done. rewrite Hu. cbn. f_equal. lia.
  - destruct (processTopUp_cases env i s Hseq)
      as [(e & _ & ->) | (product & user & _ & _ & Hi & _ & ->)]; [done|].
    cbn [fst]. erewrite (ledger_net_insert s); [|by apply next_id_free|reflexivity].
    rewrite wallet_effect_final_topup. unfold balance_of. cbn [users].
    destruct (decide (tu_payment_method i = wallet ∧ isApiSuccess env = true)) as [[Hw Hok]|Hno].
    + case_decide as Hcase.
      * destruct Hcase as [Hcaller _]. subst u. erewrite balance_of_alter by done. f_equal.
        assert (user = usr) as -> by congruence. lia.
      * rewrite balance_of_alter_other by (intros Heq; apply Hcase; done).
        rewrite Hu. cbn. f_equal. lia.
    + rewrite decide_False by (intros (_ & ? & ?); apply Hno; done).
      rewrite Hu. cbn. f_equal. lia.
Qed.

Lemma wallet_effect_pending u t : tx_status t = pending → wallet_effect u t = 0.
Proof.
  intros Hpending. unfold wallet_effect.
  rewrite decide_False; [done|]. intros [_ Hcompleted]. congruence.
Qed.

(** A call on the engine: as [run_call] has it, or refused with nothing
    written, or refused at the balance update with a pending row written. *)
Lemma run_call_checked_cases env c s :
  sequence_ahead s →
  run_call_checked env c s = run_call env c s ∨
  (∃ e, run_call_checked env c s = (s, inl e)) ∨
  (∃ t e,
     tx_status t = pending ∧
     run_call_checked env c s =
       (with_transactions s (<[transactions_id_seq s + 1 := t]> (transactions s))
          (transactions_id_seq s + 1), inl e)).
Proof.
  intros Hseq. destruct c as [i | i]; cbn [run_call_checked run_call].
  - destruct (walletDeposit_checked_cases env i s Hseq)
      as [-> | [(e & _ & ->) | (user & _ & _ & ->)]]; [by left|right; left; by eexists|].
    right; right. eexists _, _. split; [|reflexivity]. reflexivity.
  - destruct (processTopUp_checked_cases env i s Hseq)
      as [-> | [(e & _ & ->) | (product & user & _ & _ & _ & _ & _ & ->)]];
      [by left|right; left; by eexists|].
    right; right. eexists _, _. split; [|reflexivity]. reflexivity.
Qed.

Lemma run_call_checked_reconciles env c s u usr :
  sequence_ahead s →
  users s !! u = Some usr →
  balance_of (run_call_checked env c s).1 u
    = Some (user_wallet_balance usr
            + (ledger_net (run_call_checked env c s).1 u - ledger_net s u)).
Proof.
  intros Hseq Hu.
  destruct (run_call_checked_cases env c s Hseq)
    as [-> | [(e & ->) | (t & e & Hpending & ->)]].
  - by apply run_call_reconciles.
  - unfold balance_of. cbn. rewrite Hu. cbn. f_equal. lia.
  - cbn [fst]. erewrite (ledger_net_insert s); [|by apply next_id_free|reflexivity].
    rewrite wallet_effect_pending by done.
    unfold balance_of. cbn. rewrite Hu. cbn. f_equal. lia.
Qed.

Lemma run_call_checked_sequence_ahead env c s :
  sequence_ahead s → sequence_ahead (run_call_checked env c s).1.
Proof. intros Hseq. destruct c; cbn [run_call_checked]; by apply run_checked_sequence_ahead. Qed.

(** X8: the ledger accounts for the balance across any history of calls.
    Starting from a well-formed database, after any list of [walletDeposit]
    and [processTopUp] calls made one after the other, with any integer ids,
    any amounts of whole hundredths and any gateway outcomes, whether the
    calls return or throw, every user's balance is the initial balance plus
    the total of the ledger rows added since: completed deposits minus
    completed wallet-paid top-ups.  A row a call left pending, having been
    refused at the balance update, counts for nothing. *)
Theorem X8_balance_is_reconciled_by_the_ledger calls s u usr :
  sequence_ahead s →
  users s !! u = Some usr →
  balance_of (run_calls_checked calls s) u
    = Some (user_wallet_balance usr
            + (ledger_net (run_calls_checked calls s) u - ledger_net s u)).
Proof.
  revert s usr.
  induction calls as [|[env c] calls IH]; intros s usr Hseq Hu; cbn [run_calls_checked].
  - unfold balance_of. rewrite Hu. cbn. f_equal. lia.
  - pose proof (run_call_checked_reconciles env c s u usr Hseq Hu) as Hstep.
    pose proof (run_call_checked_sequence_ahead env c s Hseq) as Hseq1.
    set (s1 := (run_call_checked env c s).1) in *.
    unfold balance_of in Hstep.
    destruct (users s1 !! u) as [usr1|] eqn:Hu1; [|done].
    cbn in Hstep. injection Hstep as Hb1.
    rewrite (IH s1 usr1 Hseq1 Hu1). f_equal. lia.
Qed.

Lemma X8_witness :
  balance_of
    (run_calls_checked
       [(env_success, DepositCall (mkWalletDepositInput 2 700000 payment_gateway));
        (env_failure, TopUpCall (sample_topup 2 1 wallet));
        (env_success, DepositCall (mkWalletDepositInput 2 9999999999 payment_gateway));
        (env_success, TopUpCall (sample_topup 2 1 wallet));
        (env_success, TopUpCall (sample_topup 2 1 wallet))] sample_store) 2
  = Some (user_wallet_balance sample_low_user
          + (ledger_net
               (run_calls_checked
                  [(env_success, DepositCall (mkWalletDepositInput 2 700000 payment_gateway));
                   (env_failure, TopUpCall (sample_topup 2 1 wallet));
                   (env_success, DepositCall (mkWalletDepositInput 2 9999999999 payment_gateway));
                   (env_success, TopUpCall (sample_topup 2 1 wallet));
                   (env_success, TopUpCall (sample_topup 2 1 wallet))] sample_store) 2
             - ledger_net sample_store 2)).
Proof.
  apply (X8_balance_is_reconciled_by_the_ledger _ sample_store 2 sample_low_user).
  - by_evaluation.
  - reflexivity.
Defined.

(** The history of the witness: a deposit of 7000.00 onto 5000.00, a failed
    top-up, a deposit of 99999999.99 that the balance column cannot take and
    that leaves its row pending, a completed top-up of 10000.00, and one
    rejected for lack of funds; the balance ends at 2000.00 with four rows
    in the ledger. *)
Example reconciled_history :
  let s' :=
    run_calls_checked
      [(env_success, DepositCall (mkWalletDepositInput 2 700000 payment_gateway));
       (env_failure, TopUpCall (sample_topup 2 1 wallet));
       (env_success, DepositCall (mkWalletDepositInput 2 9999999999 payment_gateway));
       (env_success, TopUpCall (sample_topup 2 1 wallet));
       (env_success, TopUpCall (sample_topup 2 1 wallet))] sample_store in
  balance_of s' 2 = Some 200000 ∧
  ledger_net s' 2 = -300000 ∧
  (λ i, tx_status <$> transactions s' !! i) <$> [1; 2; 3; 4; 5]
    = [Some completed; Some failed; Some pending; Some completed; None].
Proof. cbv zeta. repeat split; vm_compute; reflexivity. Qed.

(** ** Deposits one after the other, and two at once *)

(** X9: deposits made one after the other add up.  For an existing user
    with balance b on a well-formed database, and amounts A1 and A2 of whole
    hundredths such that A1, A2, b + A1 and b + A1 + A2 fit [numeric(10,2)]
    and the ids fit [integer], a deposit of A1 followed by a deposit of A2
    returns two completed rows with different ids and leaves the balance at
    b + A1 + A2. *)
Theorem X9_successive_deposits_add_up env1 env2 input1 input2 s user :
  sequence_ahead s →
  users s !! wd_user_id input1 = Some user →
  wd_user_id input2 = wd_user_id input1 →
  int4 (wd_user_id input1) →
  int4 (transactions_id_seq s + 1) →
  int4 (transactions_id_seq s + 2) →
  numeric_10_2 (wd_amount input1) →
  numeric_10_2 (wd_amount input2) →
  numeric_10_2 (user_wallet_balance user + wd_amount input1) →
  numeric_10_2 (user_wallet_balance user + wd_amount input1 + wd_amount input2) →
  ∃ s1 t1 s2 t2,
    run_checked (walletDeposit env1 input1) s = (s1, inr t1) ∧
    run_checked (walletDeposit env2 input2) s1 = (s2, inr t2) ∧
    tx_status t1 = completed ∧ tx_status t2 = completed ∧
    tx_id t1 ≠ tx_id t2 ∧
    transactions s2 !! tx_id t1 = Some t1 ∧
    transactions s2 !! tx_id t2 = Some t2 ∧
    balance_of s2 (wd_user_id input1)
      = Some (user_wallet_balance user + wd_amount input1 + wd_amount input2).
Proof.
  intros Hseq Hu Hsame Hid Hnext1 Hnext2 Ha1 Ha2 Hb1 Hb2.
  pose proof (walletDeposit_credited env1 input1 s user Hseq Hu) as Hrun1.
  pose proof (run_sequence_ahead (walletDeposit env1 input1) s Hseq) as Hseq1.
  rewrite Hrun1 in Hseq1. cbn [fst] in Hseq1.
  eexists _, _, _, _.
  split; [by erewrite walletDeposit_checked_agrees|].
  split.
  { erewrite walletDeposit_checked_agrees.
    - apply walletDeposit_credited; [exact Hseq1|].
      cbn [users]. rewrite Hsame. rewrite lookup_alter_eq, Hu. reflexivity.
    - exact Hseq1.
    - cbn [users]. rewrite Hsame. rewrite lookup_alter_eq, Hu. reflexivity.
    - by rewrite Hsame.
    - cbn. by replace (transactions_id_seq s + 1 + 1) with (transactions_id_seq s + 2) by lia.
    - done.
    - done. }
  cbn. repeat split.
  - lia.
  - rewrite insert_insert_eq.
    rewrite lookup_insert_ne by lia. rewrite insert_insert_eq. apply lookup_insert_eq.
  - apply lookup_insert_eq.
  - unfold balance_of. cbn. rewrite Hsame, !lookup_alter_eq, Hu. reflexivity.
Qed.

Lemma X9_witness :
  ∃ s1 t1 s2 t2,
    run_checked (walletDeposit env_success (mkWalletDepositInput 2 2500 payment_gateway))
        sample_store
      = (s1, inr t1) ∧
    run_checked (walletDeposit env_success (mkWalletDepositInput 2 3500 payment_gateway)) s1
      = (s2, inr t2) ∧
    tx_status t1 = completed ∧ tx_status t2 = completed ∧
    tx_id t1 ≠ tx_id t2 ∧
    transactions s2 !! tx_id t1 = Some t1 ∧
    transactions s2 !! tx_id t2 = Some t2 ∧
    balance_of s2 2 = Some (user_wallet_balance sample_low_user + 2500 + 3500).
Proof.
  apply (X9_successive_deposits_add_up env_success env_success
           (mkWalletDepositInput 2 2500 payment_gateway)
           (mkWalletDepositInput 2 3500 payment_gateway) sample_store sample_low_user);
    first [ reflexivity | by_evaluation ].
Defined.

(** A deposit that made its read of step 1 on [s] and runs the rest on
    [s0]: the balance written is the one read on [s] plus the amount. *)
Lemma walletDeposit_after_read env input s s0 user :
  users s !! wd_user_id input = Some user →
  sequence_ahead s0 →
  step (walletDeposit env input) s = (s, (step (walletDeposit env input) s).2) ∧
  run (step (walletDeposit env input) s).2 s0 =
    ({| users :=
          alter (set_user_balance (user_wallet_balance user + wd_amount input)
                   (clock env 2)) (wd_user_id input) (users s0);
        service_products := service_products s0;
        transactions :=
          <[transactions_id_seq s0 + 1 := final_deposit env input s0]> (transactions s0);
        transactions_id_seq := transactions_id_seq s0 + 1 |},
     inr (final_deposit env input s0)).
Proof.
  intros Hu Hseq0. unfold walletDeposit. cbn [step].
  rewrite (exec_select_user _ _ _ Hu). cbn [snd]. split; [reflexivity|].
  rewrite run_await, exec_insert_fresh by done.
  rewrite run_await. cbn [exec].
  rewrite run_await.
  erewrite exec_update_transaction by apply lookup_insert_eq.
  cbn [run with_users with_transactions users service_products transactions
       transactions_id_seq].
  rewrite insert_insert_eq. reflexivity.
Qed.

(** The same on the engine, for values that fit their columns. *)
Lemma walletDeposit_checked_after_read env input s s0 user :
  users s !! wd_user_id input = Some user →
  sequence_ahead s0 →
  int4 (wd_user_id input) →
  int4 (transactions_id_seq s0 + 1) →
  numeric_10_2 (wd_amount input) →
  numeric_10_2 (user_wallet_balance user + wd_amount input) →
  step_checked (walletDeposit env input) s = step (walletDeposit env input) s ∧
  run_checked (step (walletDeposit env input) s).2 s0
    = run (step (walletDeposit env input) s).2 s0.
Proof.
  intros Hu Hseq0 Hid Hnext Ha Hb. unfold walletDeposit. cbn [step step_checked].
  rewrite exec_checked_select_user by done.
  rewrite (exec_select_user _ _ _ Hu). cbn [snd]. split; [reflexivity|].
  rewrite run_checked_await, run_await, exec_checked_insert by done.
  rewrite exec_insert_fresh by done.
  rewrite run_checked_await, run_await, exec_checked_update_balance by done.
  cbn [exec].
  rewrite run_checked_await, run_await, exec_checked_update_transaction by done.
  erewrite exec_update_transaction by apply lookup_insert_eq.
  reflexivity.
Qed.

(** X10: deposits in flight together do not add up.  [walletDeposit]
    computes the new balance from the row it read in step 1.  When two
    deposits of one user, of amounts A1 and A2 of whole hundredths that fit
    [numeric(10,2)] as do b + A1 and b + A2, have both made that read before
    either writes, both return a completed row, both rows are in the ledger,
    and the stored balance is b + A2: the credit of the call that writes
    first is overwritten by the other. *)
Theorem X10_deposits_in_flight_lose_a_credit env1 env2 input1 input2 s user :
  sequence_ahead s →
  users s !! wd_user_id input1 = Some user →
  wd_user_id input2 = wd_user_id input1 →
  int4 (wd_user_id input1) →
  int4 (transactions_id_seq s + 1) →
  int4 (transactions_id_seq s + 2) →
  numeric_10_2 (wd_amount input1) →
  numeric_10_2 (wd_amount input2) →
  numeric_10_2 (user_wallet_balance user + wd_amount input1) →
  numeric_10_2 (user_wallet_balance user + wd_amount input2) →
  ∃ s' t1 t2,
    interleave_checked [First; Second] (walletDeposit env1 input1) (walletDeposit env2 input2) s
      = (s', inr t1, inr t2) ∧
    tx_status t1 = completed ∧ tx_amount t1 = wd_amount input1 ∧
    tx_status t2 = completed ∧ tx_amount t2 = wd_amount input2 ∧
    transactions s' !! tx_id t1 = Some t1 ∧
    transactions s' !! tx_id t2 = Some t2 ∧
    tx_id t1 ≠ tx_id t2 ∧
    balance_of s' (wd_user_id input1) = Some (user_wallet_balance user + wd_amount input2).
Proof.
  intros Hseq Hu1 Hsame Hid Hnext1 Hnext2 Ha1 Ha2 Hb1 Hb2.
  assert (users s !! wd_user_id input2 = Some user) as Hu2 by by rewrite Hsame.
  destruct (walletDeposit_after_read env1 input1 s s user Hu1 Hseq) as [Hstep1 Hrun1].
  destruct (walletDeposit_checked_after_read env1 input1 s s user) as [Hcstep1 Hcrun1];
    [done..|].
  pose proof (run_sequence_ahead (step (walletDeposit env1 input1) s).2 s Hseq) as Hseq1.
  rewrite Hrun1 in Hseq1. cbn [fst] in Hseq1.
  destruct (walletDeposit_after_read env2 input2 s _ user Hu2 Hseq1) as [Hstep2 Hrun2].
  destruct (walletDeposit_checked_after_read env2 input2 s
              (run (step (walletDeposit env1 input1) s).2 s).1 user) as [Hcstep2 Hcrun2];
    [done| by rewrite Hrun1 | by rewrite Hsame
    | rewrite Hrun1; cbn;
      by replace (transactions_id_seq s + 1 + 1) with (transactions_id_seq s + 2) by lia
    | done | done |].
  rewrite Hrun1 in Hcrun2. cbn [fst] in Hcrun2.
  unfold interleave_checked, schedule_checked.
  rewrite Hcstep1, Hstep1, Hcstep2, Hstep2, Hcrun1, Hrun1, Hcrun2, Hrun2.
  eexists _, _, _. split; [reflexivity|].
  cbn. repeat split.
  - rewrite lookup_insert_ne by lia. apply lookup_insert_eq.
  - apply lookup_insert_eq.
  - lia.
  - unfold balance_of. cbn. rewrite Hsame, !lookup_alter_eq, Hu1. reflexivity.
Qed.

Lemma X10_witness :
  ∃ s' t1 t2,
    interleave_checked [First; Second]
      (walletDeposit env_success (mkWalletDepositInput 2 2500 payment_gateway))
      (walletDeposit env_success (mkWalletDepositInput 2 3500 payment_gateway)) sample_store
      = (s', inr t1, inr t2) ∧
    tx_status t1 = completed ∧ tx_amount t1 = 2500 ∧
    tx_status t2 = completed ∧ tx_amount t2 = 3500 ∧
    transactions s' !! tx_id t1 = Some t1 ∧
    transactions s' !! tx_id t2 = Some t2 ∧
    tx_id t1 ≠ tx_id t2 ∧
    balance_of s' 2 = Some (user_wallet_balance sample_low_user + 3500).
Proof.
  apply (X10_deposits_in_flight_lose_a_credit env_success env_success
           (mkWalletDepositInput 2 2500 payment_gateway)
           (mkWalletDepositInput 2 3500 payment_gateway) sample_store sample_low_user);
    first [ reflexivity | by_evaluation ].
Defined.

(** ** A call and the listing after it *)





(** ** The procedures of the router *)

(** X13: the [processTopUp] procedure checks the target number only: a
    number of fewer than 10 UTF-16 code units, which is what the length of a
    JavaScript string counts, is rejected with a validation error on
    [target_number] before the handler runs, and the database is untouched;
    with any other input the procedure is the handler on that input, so
    unknown ids or a wallet payment without funds are the handler's to
    reject. *)
Theorem X13_topup_procedure_checks_target_number env input s :
  ((utf16_length (tu_target_number input) < 10)%nat ∧
   appRouter.processTopUp env input = Throw (ZodError ["target_number"]) ∧
   run_checked (appRouter.processTopUp env input) s = (s, inl (ZodError ["target_number"]))) ∨
  ((10 ≤ utf16_length (tu_target_number input))%nat ∧
   appRouter.processTopUp env input = processTopUp env input).
Proof.
  unfold appRouter.processTopUp, procedure, topUpInputSchema.
  case_bool_decide as Hlen; cbn.
  - right. split; [lia | reflexivity].
  - left. split; [lia|]. split; reflexivity.
Qed.

(** Nine digits and a two-byte character make ten bytes and ten UTF-16 code
    units; eight digits and such a character make ten bytes but nine code
    units, and are rejected. *)
Example target_number_lengths :
  let e_acute := String (Ascii.ascii_of_nat 195) (String (Ascii.ascii_of_nat 169) "") in
  utf16_length "0812345678" = 10%nat ∧
  String.length ("08123456" +:+ e_acute) = 10%nat ∧
  utf16_length ("08123456" +:+ e_acute) = 9%nat ∧
  topUpInputSchema (mkTopUpInput 1 1 ("08123456" +:+ e_acute) wallet)
    = inl (ZodError ["target_number"]).
Proof. cbv zeta. repeat split; vm_compute; reflexivity. Qed.

(** ** Accounts *)



(** X17: an email can be registered once.  When some stored user has the
    email of the input, [createUser] fails on the unique constraint of
    [users.email] and no table is changed. *)
Theorem X17_duplicate_email_rejected now input db i u :
  users (store db) !! i = Some u →
  user_email u = cu_email input →
  ∃ db',
    createUser now input db = (db', inl (UniqueConstraint "users_email_unique")) ∧
    store db' = store db ∧
    service_categories db' = service_categories db.
Proof.
  intros Hu Hmail. unfold createUser, insert_user.
  rewrite decide_True.
  2: { rewrite Exists_exists. exists u. split; [|done].
       unfold rows. apply list_elem_of_fmap. exists (i, u). split; [done|].
       by apply elem_of_map_to_list. }
  eexists. repeat split.
Qed.

Lemma X17_witness :
  ∃ db',
    createUser 5 (mkCreateUserInput "test@example.com" "Different Name" "9999999999")
      sample_database = (db', inl (UniqueConstraint "users_email_unique")) ∧
    store db' = store sample_database ∧
    service_categories db' = service_categories sample_database.
Proof.
  apply (X17_duplicate_email_rejected 5
           (mkCreateUserInput "test@example.com" "Different Name" "9999999999")
           sample_database 1 sample_user);
    by vm_compute.
Defined.

(** ** The catalog *)

(** X18: a product needs its category.  When no category row has the id
    given, an integer, [createServiceProduct] throws
    'Service category with id <id> not found' for an id of the [integer]
    range, and the lookup throws the range error of the database for one
    outside of it; the database, sequences included, is exactly as before. *)
Theorem X18_product_of_unknown_category_rejected now input db :
  service_categories db !! cp_category_id input = None →
  createServiceProduct_checked now input db
    = (db, inl (if decide (int4 (cp_category_id input))
                then ServiceCategoryWithIdNotFound (cp_category_id input)
                else Refused IntegerOutOfRange)).
Proof.
  intros Hc. unfold createServiceProduct_checked. case_decide; [|done]. by rewrite Hc.
Qed.

Lemma X18_witness :
  createServiceProduct_checked 5
    (mkCreateServiceProductInput 999 "TEST_PRODUCT" "Test Product" None 1550 prepaid "Provider")
    sample_database
  = (sample_database, inl (ServiceCategoryWithIdNotFound 999)) ∧
  createServiceProduct_checked 5
    (mkCreateServiceProductInput 2147483648 "TEST_PRODUCT" "Test Product" None 1550 prepaid
       "Provider")
    sample_database
  = (sample_database, inl (Refused IntegerOutOfRange)).
Proof.
  split.
  - apply (X18_product_of_unknown_category_rejected 5
             (mkCreateServiceProductInput 999 "TEST_PRODUCT" "Test Product" None 1550 prepaid
                "Provider") sample_database).
    reflexivity.
  - apply (X18_product_of_unknown_category_rejected 5
             (mkCreateServiceProductInput 2147483648 "TEST_PRODUCT" "Test Product" None 1550
                prepaid "Provider") sample_database).
    reflexivity.
Defined.

Lemma createServiceProduct_stored now input db category :
  products_ahead db →
  service_categories db !! cp_category_id input = Some category →
  Forall (λ p, product_code p ≠ cp_product_code input) (rows (service_products (store db))) →
  let row :=
    mkProduct (service_products_id_seq db + 1) (cp_category_id input) (cp_product_code input)
      (cp_name input) (or_null (cp_description input)) (cp_price input) (cp_type input)
      (cp_provider input) true now now in
  createServiceProduct now input db =
    ({| store := with_products (store db)
                   (<[service_products_id_seq db + 1 := row]> (service_products (store db)));
        service_categories := service_categories db;
        users_id_seq := users_id_seq db;
        service_categories_id_seq := service_categories_id_seq db;
        service_products_id_seq := service_products_id_seq db + 1 |},
     inr row).
Proof.
  intros Hahead Hc Hfresh. unfold createServiceProduct, insert_service_product.
  rewrite Hc. cbn [found].
  rewrite decide_False.
  2: { rewrite Exists_exists. intros (p & Hin & Hcode).
       rewrite Forall_forall in Hfresh. by apply (Hfresh p). }
  destruct (service_products (store db) !! (service_products_id_seq db + 1)) eqn:Hkey.
  { apply Hahead in Hkey. lia. }
  reflexivity.
Qed.

(** On values that fit their columns the engine runs [createServiceProduct]
    as the handler is written. *)
Lemma createServiceProduct_checked_agrees now input db :
  int4 (cp_category_id input) →
  numeric_10_2 (cp_price input) →
  int4 (service_products_id_seq db + 1) →
  createServiceProduct_checked now input db = createServiceProduct now input db.
Proof.
  intros Hc Hprice Hnext. unfold createServiceProduct_checked, createServiceProduct.
  rewrite !decide_True by done.
  by destruct (found (service_categories db !! cp_category_id input)).
Qed.

(** X19: a product just created can be bought at its price.  With an
    existing category, an unused product code, the products sequence ahead
    of the table and a price of whole hundredths that fits [numeric(10,2)],
    [createServiceProduct] stores an active product at the price given; a
    wallet top-up of that product by a user whose balance covers the price,
    with a successful gateway and ids that fit [integer], then completes
    with amount equal to that price and debits exactly it. *)
Theorem X19_created_product_can_be_bought now input db category env uid target user :
  products_ahead db →
  sequence_ahead (store db) →
  service_categories db !! cp_category_id input = Some category →
  Forall (λ p, product_code p ≠ cp_product_code input) (rows (service_products (store db))) →
  users (store db) !! uid = Some user →
  cp_price input ≤ user_wallet_balance user →
  isApiSuccess env = true →
  int4 (cp_category_id input) →
  int4 (service_products_id_seq db + 1) →
  int4 uid →
  int4 (transactions_id_seq (store db) + 1) →
  numeric_10_2 (cp_price input) →
  numeric_10_2 (user_wallet_balance user - cp_price input) →
  ∃ db' product db'' t,
    createServiceProduct_checked now input db = (db', inr product) ∧
    product_is_active product = true ∧
    product_price product = cp_price input ∧
    on_store_checked (processTopUp env (mkTopUpInput uid (product_id product) target wallet)) db'
      = (db'', inr t) ∧
    tx_status t = completed ∧
    tx_amount t = cp_price input ∧
    tx_product_id t = Some (product_id product) ∧
    balance_of (store db'') uid = Some (user_wallet_balance user - cp_price input).
Proof.
  intros Hpa Hseq Hc Hfresh Hu Hb Hok Hcid Hpnext Huid Hnext Hprice Hdebit.
  eexists _, _, _, _.
  split; [rewrite createServiceProduct_checked_agrees by done;
          by eapply createServiceProduct_stored|].
  do 2 (split; [reflexivity|]).
  split.
  { unfold on_store_checked. cbn [store].
    erewrite processTopUp_checked_agrees; [|done|apply lookup_insert_eq|done..].
    erewrite processTopUp_wallet_debited; [reflexivity|..]; try done.
    - cbn. apply lookup_insert_eq.
    - done.
    - done. }
  cbn. rewrite Hok. repeat split.
  unfold balance_of. cbn. by erewrite balance_of_alter.
Qed.

Lemma X19_witness :
  ∃ db' product db'' t,
    createServiceProduct_checked 5
      (mkCreateServiceProductInput 1 "ISAT_5K" "Indosat 5,000" None 500000 prepaid "Indosat")
      sample_database = (db', inr product) ∧
    product_is_active product = true ∧
    product_price product = 500000 ∧
    on_store_checked (processTopUp env_success
                        (mkTopUpInput 2 (product_id product) "08987654321" wallet)) db'
      = (db'', inr t) ∧
    tx_status t = completed ∧
    tx_amount t = 500000 ∧
    tx_product_id t = Some (product_id product) ∧
    balance_of (store db'') 2 = Some (user_wallet_balance sample_low_user - 500000).
Proof.
  apply (X19_created_product_can_be_bought 5
           (mkCreateServiceProductInput 1 "ISAT_5K" "Indosat 5,000" None 500000 prepaid
              "Indosat") sample_database sample_category env_success 2 "08987654321"
           sample_low_user);
    first [ reflexivity | by_evaluation | by vm_compute ].
Defined.

Lemma row_stored {V} (m : gmap Z V) (v : V) :
  v ∈ rows m ↔ ∃ i, m !! i = Some v.
Proof.
  unfold rows. rewrite list_elem_of_fmap. split.
  - intros ([i v'] & -> & Hin). exists i. by apply elem_of_map_to_list.
  - intros (i & Hi). exists (i, v). split; [done|]. by apply elem_of_map_to_list.
Qed.

(** X20: the listing by category is the listing of all products, narrowed.
    For a category id of the [integer] range, [getProductsByCategory]
    returns the products that [getAllProducts] returns and that belong to
    the category, and no others: the stored products that are active and of
    that category.  Both leave the database as it is.  A category id without
    products, or unknown, gives the empty list and no error; an id outside
    the range gives the range error of the database. *)
Theorem X20_products_by_category_narrow_all_products input db :
  ∃ all,
    getAllProducts db = (db, inr all) ∧
    Forall (λ p, product_is_active p = true) all ∧
    if decide (int4 (gp_category_id input)) then
      ∃ by_category,
        getProductsByCategory_checked input db = (db, inr by_category) ∧
        (∀ p, p ∈ by_category ↔ p ∈ all ∧ product_category_id p = gp_category_id input) ∧
        (∀ p, p ∈ by_category ↔
              product_category_id p = gp_category_id input ∧ product_is_active p = true ∧
              ∃ i, service_products (store db) !! i = Some p) ∧
        ((∀ i p, service_products (store db) !! i = Some p →
                 product_category_id p ≠ gp_category_id input) → by_category = [])
    else getProductsByCategory_checked input db = (db, inl (Refused IntegerOutOfRange)).
Proof.
  eexists. split; [reflexivity|].
  split.
  { apply Forall_forall. intros p Hp. by apply list_elem_of_filter in Hp as [? _]. }
  unfold getProductsByCategory_checked. case_decide; [|done].
  eexists. split; [reflexivity|].
  split.
  { intros p. rewrite !list_elem_of_filter. tauto. }
  split.
  - intros p. rewrite list_elem_of_filter, row_stored. tauto.
  - intros Hnone.
    destruct (filter _ _) as [|p l] eqn:Hfilter; [done|].
    assert (p ∈ p :: l) as Hin by apply list_elem_of_here.
    rewrite <- Hfilter in Hin. apply list_elem_of_filter in Hin as [[Hcat _] Hrow].
    apply row_stored in Hrow as [i Hi]. by destruct (Hnone i p Hi).
Qed.





(** X23: a category code can be used once.  [createServiceCategory] with
    the code of a stored category fails on the unique constraint of
    [service_categories.code] and leaves every table as it was. *)
Theorem X23_duplicate_category_code_rejected now input db i c :
  service_categories db !! i = Some c →
  category_code c = cc_code input →
  ∃ db',
    createServiceCategory now input db
      = (db', inl (UniqueConstraint "service_categories_code_unique")) ∧
    store db' = store db ∧ service_categories db' = service_categories db.
Proof.
  intros Hc Hcode. unfold createServiceCategory, insert_service_category.
  rewrite decide_True.
  2: { rewrite Exists_exists. exists c. split; [|done]. apply row_stored. eauto. }
  eexists. repeat split.
Qed.

Lemma X23_witness :
  ∃ db',
    createServiceCategory 5
      (mkCreateServiceCategoryInput "Different Name" "MOBILE_PREPAID"
         (Some "Different description")) sample_database
      = (db', inl (UniqueConstraint "service_categories_code_unique")) ∧
    store db' = store sample_database ∧
    service_categories db' = service_categories sample_database.
Proof.
  apply (X23_duplicate_category_code_rejected 5
           (mkCreateServiceCategoryInput "Different Name" "MOBILE_PREPAID"
              (Some "Different description")) sample_database 1 sample_category);
    by vm_compute.
Defined.



(** ** The history view of the client *)

Lemma type_tabs_partition (l : list Transaction) :
  l ≡ₚ filter (λ t, tx_transaction_type t = wallet_deposit) l
        ++ filter (λ t, tx_transaction_type t = topup) l
        ++ filter (λ t, tx_transaction_type t = wallet_withdrawal) l.
Proof.
  induction l as [|t l IH]; [done|].
  rewrite !filter_cons.
  destruct (tx_transaction_type t) eqn:Htype;
    repeat (rewrite decide_True by done || rewrite decide_False by done).
  - (* topup *)
    change (t :: l ≡ₚ filter (λ t, tx_transaction_type t = wallet_deposit) l
                     ++ t :: (filter (λ t, tx_transaction_type t = topup) l
                              ++ filter (λ t, tx_transaction_type t = wallet_withdrawal) l)).
    by apply Permutation_cons_app.
  - (* wallet_deposit *)
    cbn. by constructor.
  - (* wallet_withdrawal *)
    rewrite (assoc_L (++)). apply Permutation_cons_app. by rewrite <- (assoc_L (++)).
Qed.

(** X26: the tabs of the transaction history split it by type.  Every
    transaction handed to the view is shown in exactly one of the tabs
    Deposits, Top Ups and Withdrawals, so the three counts add up to the
    count of the tab All, and each tab keeps the order of the list. *)
Theorem X26_history_tabs_partition_the_transactions transactions :
  let g := groupedTransactions transactions in
  g_all g = transactions ∧
  transactions ≡ₚ g_deposits g ++ g_topups g ++ g_withdrawals g ∧
  length (g_all g) = (length (g_deposits g) + length (g_topups g)
                      + length (g_withdrawals g))%nat ∧
  g_deposits g `sublist_of` transactions ∧
  g_topups g `sublist_of` transactions ∧
  g_withdrawals g `sublist_of` transactions ∧
  Forall (λ t, tx_transaction_type t = wallet_deposit) (g_deposits g) ∧
  Forall (λ t, tx_transaction_type t = topup) (g_topups g) ∧
  Forall (λ t, tx_transaction_type t = wallet_withdrawal) (g_withdrawals g).
Proof.
  cbv zeta. unfold groupedTransactions. cbn.
  split; [done|]. split; [apply type_tabs_partition|].
  split.
  { rewrite (type_tabs_partition transactions) at 1. rewrite !length_app. lia. }
  repeat split; try apply sublist_filter;
    apply Forall_forall; intros t Ht; by apply list_elem_of_filter in Ht as [? _].
Qed.
